(** * SkySense flight price predictor: the prediction engine

    A shallow embedding of [backend/pipeline.py] and of the part of
    [backend/main.py] that builds the prediction response.

    Conventions of the embedding.
    - A Python [float] that carries a price or a duration is a real number
      ([R]); [None] and pandas' missing value are [option].  Comparisons are
      the decidable comparisons of [R].
    - A Python [dict] is a [gmap]; a [list] is a [list].
    - The fitted scikit-learn pipeline is a record of functions: what the
      whole pipeline predicts for a feature row and what each tree of the
      forest predicts for it. *)

From Stdlib Require Import Reals Lra QArith.
From stdpp Require Import gmap strings list fin_maps sorting pretty.

#[local] Open Scope R_scope.
#[local] Open Scope string_scope.

(** ** Vocabularies (module constants of [pipeline.py]) *)

Definition ALLOWED_AIRLINES : list string :=
  ["Vistara"; "Air_India"; "Indigo"; "GO_FIRST"; "AirAsia"; "SpiceJet"; "Unknown"].
Definition ALLOWED_CITIES : list string :=
  ["Delhi"; "Mumbai"; "Bangalore"; "Kolkata"; "Hyderabad"; "Chennai"].
Definition ALLOWED_TIMES : list string :=
  ["Early_Morning"; "Morning"; "Afternoon"; "Evening"; "Night"; "Late_Night"; "Unknown"].
Definition ALLOWED_STOPS : list string := ["zero"; "one"; "two_or_more"].
Definition ALLOWED_CLASS : list string := ["Economy"; "Business"].

(** ** Route statistics *)

(** [RouteMedians]: the dataclass of the same name. *)
Record RouteMedians : Type := mkRouteMedians {
  route_to_duration_median : gmap (string * string) R;
  global_duration_median : R
}.

(** ** Category normalisation (first loop of [_prepare_training_frame]) *)

(** A cell of an object column as [pandas.read_csv] delivers it: the text of
    the field, or the missing value for an empty field. *)
Inductive cell : Type :=
  | CStr (s : string)
  | CNaN.

(** [Series.astype(str)] on one cell; the missing value prints as [nan]. *)
Definition astype_str (c : cell) : string :=
  match c with
  | CStr s => s
  | CNaN => "nan"
  end.

(** [s.where(s.isin(allowed), "Unknown")] on one (string) cell. *)
Definition where_isin (allowed : list string) (s : string) : string :=
  if bool_decide (s ∈ allowed) then s else "Unknown".

(** The (column, vocabulary) pairs the loop runs over, in its order. *)
Definition CATEGORICAL_VOCABULARIES : list (string * list string) :=
  [ ("airline", ALLOWED_AIRLINES);
    ("source_city", ALLOWED_CITIES);
    ("departure_time", ALLOWED_TIMES);
    ("arrival_time", ALLOWED_TIMES);
    ("destination_city", ALLOWED_CITIES) ].

(** One iteration: [if col in df.columns: df[col] = df[col].astype(str);
    df[col] = df[col].where(df[col].isin(allowed), "Unknown")].
    A raw frame is the dictionary of its columns. *)
Definition normalize_column (df : gmap string (list cell))
    (ca : string * list string) : gmap string (list cell) :=
  match df !! ca.1 with
  | Some series =>
      <[ca.1 := (λ c, CStr (where_isin ca.2 (astype_str c))) <$> series]> df
  | None => df
  end.

(** [df.drop(columns=[col for col in ["Unnamed: 0", "flight"] if col in df.columns])] *)
Definition drop_irrelevant (df : gmap string (list cell)) : gmap string (list cell) :=
  delete "flight" (delete "Unnamed: 0" df).

(** Lines 52-64 of [_prepare_training_frame]: the drop and the loop. *)
Definition normalize_categoricals (df : gmap string (list cell))
  : gmap string (list cell) :=
  foldl normalize_column (drop_irrelevant df) CATEGORICAL_VOCABULARIES.

(** ** The prepared training frame and the route statistics table *)

Module Frame.

(** A row of the prepared frame, restricted to the columns that
    [_build_route_medians] reads.  The two city columns are strings (they
    went through [astype(str)]); [duration] went through
    [pd.to_numeric(errors="coerce")], so it is a number or missing. *)
Record Row : Type := mkRow {
  source_city : string;
  destination_city : string;
  duration : option R
}.

(** A frame: the names of its columns and its rows.  The field of a row
    for a column that is not in [columns] is not read. *)
Record t : Type := mk {
  columns : list string;
  rows : list Row
}.

(** The group key of a row. *)
Definition key (r : Row) : string * string :=
  (source_city r, destination_city r).

End Frame.

(** Ascending insertion into a sorted list of values. *)
Fixpoint insert_sorted (x : R) (l : list R) : list R :=
  match l with
  | [] => [x]
  | y :: l' => if Rle_dec x y then x :: l else y :: insert_sorted x l'
  end.

Definition sort_values (l : list R) : list R := foldr insert_sorted [] l.

(** The median of a list of values: the middle one of the sorted values, or
    the mean of the two middle ones; nothing (pandas: NaN) for no value. *)
Definition median (l : list R) : option R :=
  let s := sort_values l in
  let n := length s in
  if Nat.eqb n 0 then None
  else if Nat.even n
       then Some ((nth (n / 2 - 1) s 0 + nth (n / 2) s 0) / 2)
       else Some (nth (n / 2) s 0).

(** The values of a float series that are not missing. *)
Definition known (series : list (option R)) : list R := omap (λ v, v) series.

(** [Series.median()]: missing values are skipped. *)
Definition series_median (series : list (option R)) : option R :=
  median (known series).

(** [df.dropna(subset=["duration"])] *)
Definition dropna_duration (rows : list Frame.Row) : list Frame.Row :=
  filter (λ r, is_Some (Frame.duration r)) rows.

(** [.groupby(["source_city", "destination_city"])["duration"]]: the
    duration series of each pair, in row order. *)
Definition groupby_route (rows : list Frame.Row)
  : gmap (string * string) (list (option R)) :=
  foldr (λ r g, <[Frame.key r :=
                    Frame.duration r :: default [] (g !! Frame.key r)]> g)
        ∅ rows.

(** [Series.isna()] on one cell. *)
Definition isna (v : option R) : bool :=
  match v with
  | Some _ => false
  | None => true
  end.

(** [float(v)] for a median [v].  The median of a series with a value that
    is not missing is a number. *)
Definition float_of (v : option R) : R := default 0 v.

(** [FlightPriceModel._build_route_medians].  The dictionary comprehension
    [{k: float(v) for k, v in route_group.to_dict().items()}] keeps every
    group; a group holds a row with a duration, so its median is a
    number. *)
Definition build_route_medians (df : Frame.t) : RouteMedians :=
  if forallb (λ c, bool_decide (c ∈ Frame.columns df))
             ["source_city"; "destination_city"; "duration"]
  then
    let route_group :=
      series_median <$> groupby_route (dropna_duration (Frame.rows df)) in
    let route_to_duration := omap (λ v, v) route_group in
    let durations := Frame.duration <$> Frame.rows df in
    let global_med :=
      if negb (forallb isna durations)
      then float_of (series_median durations)
      else 2 in
    mkRouteMedians route_to_duration global_med
  else mkRouteMedians ∅ 2.

(** ** The fitted pipeline and the uncertainty estimate *)

(** The one-row frame [X] that [predict] builds and the inference methods
    receive: its nine columns.  [pipeline.predict] needs all nine, so on a
    run that returns the [if col in base.columns] guards of
    [local_contributions] hold. *)
Record Row : Type := mkRow {
  source_city : string;
  destination_city : string;
  class : Z;
  stops : Z;
  days_left : Z;
  duration : R;
  airline : string;
  departure_time : string;
  arrival_time : string
}.

(** The fitted scikit-learn [Pipeline], seen through the two calls the code
    makes on it. *)
Record Pipeline : Type := mkPipeline {
  (** [self.pipeline.predict(features)[0]] *)
  pipeline_predict : Row → R;
  (** [est.predict(preprocessor.transform(features))[0]] for each [est] of
      [model.estimators_], in order *)
  estimators_ : list (Row → R)
}.

Definition sum_values (l : list R) : R := foldr Rplus 0 l.

(** [numpy.mean] *)
Definition np_mean (l : list R) : R := sum_values l / INR (length l).

(** [numpy.std] with its default [ddof=0]:
    [sqrt(mean(abs(x - x.mean())**2))]. *)
Definition np_std (l : list R) : R :=
  sqrt (np_mean ((λ x, (Rabs (x - np_mean l))²) <$> l)).

(** The body of [FlightPriceModel.predict_with_uncertainty] once
    [self.pipeline] is known to be set. *)
Definition pipeline_predict_with_uncertainty (p : Pipeline) (features : Row)
  : R * R * R :=
  let pred := pipeline_predict p features in
  let trees := (λ est : Row → R, est features) <$> estimators_ p in
  let std := np_std trees in
  let lower := pred - 1.96 * std in
  let upper := pred + 1.96 * std in
  (pred, lower, upper).

(** ** The model object *)

(** The attributes of a [FlightPriceModel]; [None] is Python's [None]. *)
Record FlightPriceModel : Type := mkModel {
  pipeline : option Pipeline;
  route_medians : option RouteMedians;
  feature_names_out_ : option (list string);
  model_path : option string;
  model_version : option string
}.

(** [FlightPriceModel.__init__] *)
Definition new_model : FlightPriceModel := mkModel None None None None None.

(** [FlightPriceModel.impute_duration].  The result is the triple
    (value, was_imputed, imputed_value); a failed [assert] is [None].
    [float(x)] is the identity on a float; [key in d] followed by [d[key]]
    is one lookup. *)
Definition impute_duration (self : FlightPriceModel)
    (source_city destination_city : string) (duration : option R)
  : option (R * bool * R) :=
  let from_table :=
    rm ← route_medians self;
    let key := (source_city, destination_city) in
    let imputed :=
      match route_to_duration_median rm !! key with
      | Some m => m
      | None => global_duration_median rm
      end in
    Some (imputed, true, imputed) in
  match duration with
  | Some d => if Rlt_dec 0 d then Some (d, false, 0) else from_table
  | None => from_table
  end.

(** [FlightPriceModel.predict_with_uncertainty]; a failed [assert] is
    [None]. *)
Definition predict_with_uncertainty (self : FlightPriceModel) (features : Row)
  : option (R * R * R) :=
  p ← pipeline self;
  Some (pipeline_predict_with_uncertainty p features).

(** ** Local contributions *)

Record Contribution : Type := mkContribution {
  feature : string;
  contribution : R;
  direction : string
}.

(** The baseline of [local_contributions]: the three optional categorical
    columns set to [Unknown], [duration] set to the global median. *)
Definition baseline (rm : RouteMedians) (instance : Row) : Row :=
  let base := instance in
  let base := foldl (λ (b : Row) (col : string),
       if String.eqb col "airline" then
         mkRow (source_city b) (destination_city b) (class b) (stops b)
               (days_left b) (duration b) "Unknown" (departure_time b)
               (arrival_time b)
       else if String.eqb col "departure_time" then
         mkRow (source_city b) (destination_city b) (class b) (stops b)
               (days_left b) (duration b) (airline b) "Unknown"
               (arrival_time b)
       else if String.eqb col "arrival_time" then
         mkRow (source_city b) (destination_city b) (class b) (stops b)
               (days_left b) (duration b) (airline b) (departure_time b)
               "Unknown"
       else b)
    base ["airline"; "departure_time"; "arrival_time"] in
  mkRow (source_city base) (destination_city base) (class base) (stops base)
        (days_left base) (global_duration_median rm) (airline base)
        (departure_time base) (arrival_time base).

(** [toggled[c] = instance[c]]; a column name that the frame does not have
    raises [KeyError]. *)
Definition copy_column (c : string) (instance toggled : Row) : option Row :=
  let t := toggled in
  if String.eqb c "class" then
    Some (mkRow (source_city t) (destination_city t) (class instance) (stops t)
                (days_left t) (duration t) (airline t) (departure_time t)
                (arrival_time t))
  else if String.eqb c "stops" then
    Some (mkRow (source_city t) (destination_city t) (class t) (stops instance)
                (days_left t) (duration t) (airline t) (departure_time t)
                (arrival_time t))
  else if String.eqb c "days_left" then
    Some (mkRow (source_city t) (destination_city t) (class t) (stops t)
                (days_left instance) (duration t) (airline t)
                (departure_time t) (arrival_time t))
  else if String.eqb c "duration" then
    Some (mkRow (source_city t) (destination_city t) (class t) (stops t)
                (days_left t) (duration instance) (airline t)
                (departure_time t) (arrival_time t))
  else if String.eqb c "airline" then
    Some (mkRow (source_city t) (destination_city t) (class t) (stops t)
                (days_left t) (duration t) (airline instance)
                (departure_time t) (arrival_time t))
  else if String.eqb c "source_city" then
    Some (mkRow (source_city instance) (destination_city t) (class t) (stops t)
                (days_left t) (duration t) (airline t) (departure_time t)
                (arrival_time t))
  else if String.eqb c "departure_time" then
    Some (mkRow (source_city t) (destination_city t) (class t) (stops t)
                (days_left t) (duration t) (airline t)
                (departure_time instance) (arrival_time t))
  else if String.eqb c "arrival_time" then
    Some (mkRow (source_city t) (destination_city t) (class t) (stops t)
                (days_left t) (duration t) (airline t) (departure_time t)
                (arrival_time instance))
  else if String.eqb c "destination_city" then
    Some (mkRow (source_city t) (destination_city instance) (class t) (stops t)
                (days_left t) (duration t) (airline t) (departure_time t)
                (arrival_time t))
  else None.

(** The nine feature groups, in the order of the source. *)
Definition groups : list (string * list string) :=
  [ ("class", ["class"]);
    ("stops", ["stops"]);
    ("days_left", ["days_left"]);
    ("duration", ["duration"]);
    ("airline", ["airline"]);
    ("source_city", ["source_city"]);
    ("departure_time", ["departure_time"]);
    ("arrival_time", ["arrival_time"]);
    ("destination_city", ["destination_city"]) ].

(** [toggled = base.copy(); for c in cols: toggled[c] = instance[c]] *)
Definition toggle (instance base : Row) (cols : list string) : option Row :=
  foldl (λ (t : option Row) (c : string), t ≫= copy_column c instance)
        (Some base) cols.

(** One iteration of the loop over [groups]: the record appended to
    [contribs]. *)
Definition contribution_of (self : FlightPriceModel) (instance base : Row)
    (base_pred : R) (g : string * list string) : option Contribution :=
  toggled ← toggle instance base g.2;
  '(pred, _, _) ← predict_with_uncertainty self toggled;
  let delta := pred - base_pred in
  Some (mkContribution g.1 (Rabs delta)
          (if Rge_dec delta 0 then "+" else "-")).

(** Insertion for [list.sort(key=..., reverse=True)]: descending by
    [contribution]; the sort is stable, so a record goes before the records
    that follow it in the list and have the same key. *)
Fixpoint insert_desc (c : Contribution) (l : list Contribution)
  : list Contribution :=
  match l with
  | [] => [c]
  | y :: l' =>
      if Rlt_dec (contribution c) (contribution y)
      then y :: insert_desc c l'
      else c :: l
  end.

Definition sort_contribs (l : list Contribution) : list Contribution :=
  foldr insert_desc [] l.

(** The order of the sorted records: no record has a smaller magnitude than a
    record after it. *)
Definition by_magnitude_desc (a b : Contribution) : Prop :=
  contribution b <= contribution a.

(** [FlightPriceModel.local_contributions] *)
Definition local_contributions (self : FlightPriceModel) (instance : Row)
  : option (list Contribution) :=
  _ ← pipeline self;
  rm ← route_medians self;
  let base := baseline rm instance in
  '(base_pred, _, _) ← predict_with_uncertainty self base;
  '(curr_pred, _, _) ← predict_with_uncertainty self instance;
  contribs ← mapM (contribution_of self instance base base_pred) groups;
  Some (take 5 (sort_contribs contribs)).

(** ** Training, persistence and the process-wide model *)

(** What [joblib.dump] writes; [model_version] is read back with
    [loaded.get], so an artifact may lack it. *)
Record Artifact : Type := mkArtifact {
  artifact_pipeline : Pipeline;
  artifact_route_medians : RouteMedians;
  artifact_feature_names_out : list string;
  artifact_model_version : option string
}.

(** The pandas and scikit-learn steps of the training path that are
    outside this repository. *)
Record Library : Type := mkLibrary {
  (** the rest of [_prepare_training_frame] (the numeric conversions), seen
      through the columns that [_build_route_medians] reads; [None] when it
      raises *)
  to_numeric_frame : gmap string (list cell) → option Frame.t;
  (** fitting the pipeline on the prepared frame and reading the names of
      the one-hot columns; [None] when it raises *)
  fit : gmap string (list cell) → option (Pipeline * list string)
}.

(** The state the engine lives in: the two files with their modification
    times, the wall clock, the module-level [MODEL_SINGLETON], and a count
    of the forests fitted so far (an observer, not in the source). *)
Record World : Type := mkWorld {
  csv_file : option (Q * gmap string (list cell));
  model_file : option (Q * Artifact);
  clock : Q;
  MODEL_SINGLETON : FlightPriceModel;
  fits : nat
}.

(** [int(x)] on a float timestamp: truncation towards zero. *)
Definition int_of (x : Q) : Z := Z.quot (Qnum x) (Z.pos (Qden x)).

(** The [# Train fresh] part of [train_or_load]; [None] is an exception
    ([read_csv] on a missing file, a failed conversion, a failed fit), and
    what an exception leaves behind in the singleton is not followed. *)
Definition train_fresh (lib : Library) (w : World) : option World :=
  '(_, df_raw) ← csv_file w;
  let normalized := normalize_categoricals df_raw in
  df ← to_numeric_frame lib normalized;
  let rm := build_route_medians df in
  '(fitted, names) ← fit lib normalized;
  let version := "rf-" +:+ pretty (int_of (clock w)) in
  Some (mkWorld (csv_file w)
          (Some (clock w, mkArtifact fitted rm names (Some version)))
          (clock w)
          (mkModel (Some fitted) (Some rm) (Some names)
                   (Some "backend/model.joblib") (Some version))
          (S (fits w))).

(** [FlightPriceModel.train_or_load], run on the singleton: the artifact is
    loaded when it exists and is at least as recent as the dataset. *)
Definition train_or_load (lib : Library) (w : World) : option World :=
  let csv_mtime := from_option fst 0%Q (csv_file w) in
  let model_mtime := from_option fst 0%Q (model_file w) in
  match model_file w with
  | Some (_, loaded) =>
      if Qle_bool csv_mtime model_mtime then
        Some (mkWorld (csv_file w) (model_file w) (clock w)
                (mkModel
                   (Some (artifact_pipeline loaded))
                   (Some (artifact_route_medians loaded))
                   (Some (artifact_feature_names_out loaded))
                   (Some "backend/model.joblib")
                   (Some (default ("loaded-" +:+ pretty (int_of model_mtime))
                                  (artifact_model_version loaded))))
                (fits w))
      else train_fresh lib w
  | None => train_fresh lib w
  end.

(** [load_or_train_model]: the singleton is trained or loaded on first use
    and returned as it is afterwards. *)
Definition load_or_train_model (lib : Library) (w : World)
  : option (FlightPriceModel * World) :=
  match pipeline (MODEL_SINGLETON w) with
  | None =>
      w' ← train_or_load lib w;
      Some (MODEL_SINGLETON w', w')
  | Some _ => Some (MODEL_SINGLETON w, w)
  end.

(** Time passing between two calls. *)
Definition at_time (t : Q) (w : World) : World :=
  mkWorld (csv_file w) (model_file w) t (MODEL_SINGLETON w) (fits w).

(** ** The prediction endpoint ([predict] of [main.py]) *)

Module Request.

(** [PredictRequest] after validation. *)
Record t : Type := mk {
  source_city : string;
  destination_city : string;
  cabin_class : string;
  stops : string;
  days_left : Z;
  duration : option R;
  airline : option string;
  departure_time : option string;
  arrival_time : option string
}.

End Request.

Record PredictResponse : Type := mkResponse {
  predicted_price : R;
  lower_bound : R;
  upper_bound : R;
  top_contributors : list Contribution;
  assumptions_used : gmap string string
}.

Definition STOPS_MAP : gmap string Z :=
  <["zero" := 0%Z]> (<["one" := 1%Z]> (<["two_or_more" := 2%Z]> ∅)).

(** [data.get(field) or "Unknown"] *)
Definition or_unknown (v : option string) : string :=
  match v with
  | Some s => if String.eqb s EmptyString then "Unknown" else s
  | None => "Unknown"
  end.

(** Python's [max(a, b)]: the first argument unless the second is
    greater. *)
Definition py_max (a b : R) : R := if Rlt_dec a b then b else a.

(** The assumption entry of an optional categorical field. *)
Definition note_default (field val : string) (given : option string)
    (assumptions : gmap string string) : gmap string string :=
  if String.eqb val "Unknown"
     && String.eqb (default EmptyString given) EmptyString
  then <[field := "default_unknown"]> assumptions
  else assumptions.

(** [predict]: the response.  The best-effort log that follows cannot
    change it and is left out; [echo] is the request itself. *)
Definition predict (lib : Library) (w : World) (payload : Request.t)
  : option (PredictResponse * World) :=
  let airline := or_unknown (Request.airline payload) in
  let departure_time := or_unknown (Request.departure_time payload) in
  let arrival_time := or_unknown (Request.arrival_time payload) in
  '(model, w') ← load_or_train_model lib w;
  '(duration, was_imputed, imputed_value) ←
    impute_duration model (Request.source_city payload)
      (Request.destination_city payload) (Request.duration payload);
  stops ← STOPS_MAP !! Request.stops payload;
  let X := mkRow (Request.source_city payload)
                 (Request.destination_city payload)
                 (if String.eqb (Request.cabin_class payload) "Business"
                  then 1%Z else 0%Z)
                 stops (Request.days_left payload) duration
                 airline departure_time arrival_time in
  '(pred, lower, upper) ← predict_with_uncertainty model X;
  contribs ← local_contributions model X;
  let assumptions :=
    if (was_imputed : bool)
    then <["duration" := "route_median"]> (∅ : gmap string string)
    else ∅ in
  let assumptions :=
    note_default "arrival_time" arrival_time (Request.arrival_time payload)
      (note_default "departure_time" departure_time
         (Request.departure_time payload)
         (note_default "airline" airline (Request.airline payload)
            assumptions)) in
  Some (mkResponse pred (py_max lower 0) (py_max upper 0) contribs assumptions,
        w').

(** ** The standard deviation as the specification words it

    The specification asks for the sample standard deviation of the tree
    predictions: the square root of the sum of squared deviations from the
    mean divided by [n - 1].  It is compared with [np_std] below. *)
Definition sample_std_spec (l : list R) : R :=
  sqrt (sum_values ((λ x, (x - np_mean l)²) <$> l) / (INR (length l) - 1)).

(** ** Concrete inputs used by the examples *)

(** A forest of two trees that answer 0 and 10 whatever the row; the
    pipeline predicts their mean. *)
Definition example_pipeline : Pipeline :=
  mkPipeline (λ _, 5) [(λ _, 0); (λ _, 10)].

Definition example_route_medians : RouteMedians :=
  mkRouteMedians (<[("Delhi", "Mumbai") := 2.25]> ∅) 2.

Definition example_model : FlightPriceModel :=
  mkModel (Some example_pipeline) (Some example_route_medians) (Some [])
          (Some "backend/model.joblib") (Some "rf-0").

Definition example_row : Row :=
  mkRow "Delhi" "Mumbai" 0 0 10 2.25 "Vistara" "Morning" "Night".

(** A frame whose only record of the route Delhi-Mumbai has no duration. *)
Definition example_frame_missing : Frame.t :=
  Frame.mk ["source_city"; "destination_city"; "duration"]
           [Frame.mkRow "Delhi" "Mumbai" None].

(** A frame with three timed records of Delhi-Mumbai and one record of
    Delhi-Chennai without a duration. *)
Definition example_frame : Frame.t :=
  Frame.mk ["source_city"; "destination_city"; "duration"]
           [Frame.mkRow "Delhi" "Mumbai" (Some 2);
            Frame.mkRow "Delhi" "Chennai" None;
            Frame.mkRow "Delhi" "Mumbai" (Some 6);
            Frame.mkRow "Delhi" "Mumbai" (Some 4)].

(** A raw frame with an airline column: a known carrier, a carrier in the
    wrong case, and an empty field. *)
Definition example_raw_frame : gmap string (list cell) :=
  <["airline" := [CStr "Vistara"; CStr "vistara"; CNaN]]> ∅.

(** Library steps that succeed, and a world before the first request: a
    dataset written at time 100, no artifact, the clock at 200. *)
Definition example_library : Library :=
  mkLibrary (λ _, Some example_frame) (λ _, Some (example_pipeline, [])).

Definition example_world : World :=
  mkWorld (Some (100%Q, example_raw_frame)) None 200%Q new_model 0.

(** The world once the model is in place, and the request of the
    end-to-end example of the specification. *)
Definition example_ready_world : World :=
  mkWorld (Some (100%Q, example_raw_frame)) None 200%Q example_model 1.

Definition example_request : Request.t :=
  Request.mk "Delhi" "Mumbai" "Economy" "zero" 10 None None None None.

(** ** The label columns of [_prepare_training_frame] *)

Definition CLASS_MAP : gmap string Z :=
  <["Economy" := 0%Z]> (<["Business" := 1%Z]> ∅).

(** [df[col].map(mapping).astype(int)] on an object column: a cell that is
    not a key of the mapping becomes the missing value, and [astype(int)]
    raises on a column that has one. *)
Definition map_astype_int (mapping : gmap string Z) (series : list cell)
  : option (list Z) :=
  mapM (λ c, match c with
             | CStr s => mapping !! s
             | CNaN => None
             end) series.

(** ** The other endpoints of [main.py] *)

Record HealthResponse : Type := mkHealth {
  status : string;
  health_model_version : option string;
  has_pipeline : bool
}.

(** [health] *)
Definition health (lib : Library) (w : World)
  : option (HealthResponse * World) :=
  '(model, w') ← load_or_train_model lib w;
  Some (mkHealth "ok" (model_version model)
          (bool_decide (is_Some (pipeline model))),
        w').

Record RouteMedianResponse : Type := mkRouteMedianResponse {
  response_source_city : string;
  response_destination_city : string;
  route_median_value : option R;
  global_median : R
}.

(** [route_median]: [dict.get] gives [None] for a pair that is not a
    key. *)
Definition route_median (lib : Library) (w : World)
    (source_city destination_city : string)
  : option (RouteMedianResponse * World) :=
  '(model, w') ← load_or_train_model lib w;
  rm ← route_medians model;
  let key := (source_city, destination_city) in
  let route_med := route_to_duration_median rm !! key in
  Some (mkRouteMedianResponse source_city destination_city route_med
          (global_duration_median rm),
        w').

(** ** Request validation ([schemas.py]) *)

Module Schema.

(** The [Literal] types. *)
Definition City : list string :=
  ["Delhi"; "Mumbai"; "Bangalore"; "Kolkata"; "Hyderabad"; "Chennai"].
Definition TimeBand : list string :=
  ["Early_Morning"; "Morning"; "Afternoon"; "Evening"; "Night"; "Late_Night";
   "Unknown"].
Definition Stops : list string := ["zero"; "one"; "two_or_more"].
Definition CabinClass : list string := ["Economy"; "Business"].
Definition Airline : list string :=
  ["Vistara"; "Air_India"; "Indigo"; "GO_FIRST"; "AirAsia"; "SpiceJet";
   "Unknown"].

(** [PredictRequest._not_same_city]: [data] holds the fields validated so
    far, of which the validator reads [source_city]; [None] is the
    [ValueError]. *)
Definition not_same_city (v : string) (data : gmap string string)
  : option string :=
  let sc := data !! "source_city" in
  match sc with
  | Some sc =>
      if negb (String.eqb sc EmptyString) && String.eqb v sc
      then None
      else Some v
  | None => Some v
  end.

(** An optional field of a [Literal] type. *)
Definition optional_in (allowed : list string) (v : option string) : bool :=
  match v with
  | Some s => bool_decide (s ∈ allowed)
  | None => true
  end.

(** Validation of a [PredictRequest] whose fields already have their JSON
    types: every field is checked against its annotation, the destination
    also by [_not_same_city], and one failure rejects the request ([None]
    is the [ValidationError]).  The [flight] field has no constraint and is
    not read by the engine; it is not part of [Request.t]. *)
Definition validate (raw : Request.t) : option Request.t :=
  let source_ok := bool_decide (Request.source_city raw ∈ City) in
  let data : gmap string string :=
    if source_ok then <["source_city" := Request.source_city raw]> ∅ else ∅ in
  let destination_ok :=
    bool_decide (Request.destination_city raw ∈ City)
    && bool_decide (is_Some (not_same_city (Request.destination_city raw) data)) in
  let class_ok := bool_decide (Request.cabin_class raw ∈ CabinClass) in
  let stops_ok := bool_decide (Request.stops raw ∈ Stops) in
  let days_left_ok := Z.leb 0 (Request.days_left raw) in
  let duration_ok :=
    match Request.duration raw with
    | Some d => if Rlt_dec 0 d then true else false
    | None => true
    end in
  let airline_ok := optional_in Airline (Request.airline raw) in
  let departure_ok := optional_in TimeBand (Request.departure_time raw) in
  let arrival_ok := optional_in TimeBand (Request.arrival_time raw) in
  if source_ok && destination_ok && class_ok && stops_ok && days_left_ok
     && duration_ok && airline_ok && departure_ok && arrival_ok
  then Some raw
  else None.

End Schema.

(** ** Processes and files *)

(** A new process on the same files: the module is imported again and
    [MODEL_SINGLETON] is a new [FlightPriceModel()]. *)
Definition restart (w : World) : World :=
  mkWorld (csv_file w) (model_file w) (clock w) new_model (fits w).

(** The dataset file is written (or removed) at some time. *)
Definition with_dataset (csv : option (Q * gmap string (list cell)))
    (w : World) : World :=
  mkWorld csv (model_file w) (clock w) (MODEL_SINGLETON w) (fits w).

(** Whether a record has a positive magnitude is decidable. *)
#[local] Instance contribution_pos_dec (c : Contribution)
  : Decision (0 < contribution c) := Rlt_dec 0 (contribution c).

(** A model whose route statistics are those of [example_frame]. *)
Definition example_built_model : FlightPriceModel :=
  mkModel (Some example_pipeline) (Some (build_route_medians example_frame))
          (Some []) (Some "backend/model.joblib") (Some "rf-0").

(** The row that [predict] builds for [example_request]: the optional
    fields are defaulted and the duration is the route median. *)
Definition example_row_defaults : Row :=
  mkRow "Delhi" "Mumbai" 0 0 10 2.25 "Unknown" "Unknown" "Unknown".

(** A forest of one tree that prices Vistara at 7 and every other airline
    at 5. *)
Definition example_airline_pipeline : Pipeline :=
  mkPipeline (λ x, if String.eqb (airline x) "Vistara" then 7 else 5)
             [(λ x, if String.eqb (airline x) "Vistara" then 7 else 5)].

Definition example_airline_model : FlightPriceModel :=
  mkModel (Some example_airline_pipeline) (Some example_route_medians)
          (Some []) (Some "backend/model.joblib") (Some "rf-0").

(** * Properties *)

(** ** Duration imputation *)

Section Imputation.
Context (self : FlightPriceModel) (rm : RouteMedians).
Context (source_city destination_city : string).

(** A supplied duration above zero is returned as it is. *)
Lemma impute_duration_supplied (d : R) :
  0 < d →
  impute_duration self source_city destination_city (Some d)
  = Some (d, false, 0).
Proof.
  intros Hd. unfold impute_duration.
  destruct (Rlt_dec 0 d) as [_|Hn]; [reflexivity | contradiction].
Qed.

(** Otherwise the value comes from the table or from the global median. *)
Lemma impute_duration_imputes (duration : option R) :
  route_medians self = Some rm →
  (∀ d, duration = Some d → ¬ 0 < d) →
  let v := default (global_duration_median rm)
             (route_to_duration_median rm !! (source_city, destination_city)) in
  impute_duration self source_city destination_city duration
  = Some (v, true, v).
Proof.
  intros Hrm Hno v. unfold impute_duration. rewrite Hrm. simpl.
  assert (Hv : match route_to_duration_median rm
                       !! (source_city, destination_city) with
               | Some m => m
               | None => global_duration_median rm
               end = v).
  { subst v.
    destruct (route_to_duration_median rm !! (source_city, destination_city));
      reflexivity. }
  rewrite Hv.
  destruct duration as [d|]; [|reflexivity].
  destruct (Rlt_dec 0 d) as [Hd|_]; [|reflexivity].
  exfalso. exact (Hno d eq_refl Hd).
Qed.
End Imputation.

(** C1.  [impute_duration] returns a supplied duration that is strictly
    greater than 0 unchanged, with [was_imputed = false]; for a duration
    that is absent or not greater than 0 it returns, with
    [was_imputed = true], the median of the route when the exact pair
    (origin, destination) is a key of the table and the global median when
    it is not. *)
Theorem impute_duration_cases
    (self : FlightPriceModel) (rm : RouteMedians)
    (origin destination : string) (duration : option R) :
  route_medians self = Some rm →
  (∀ d, duration = Some d → 0 < d →
     ∃ iv, impute_duration self origin destination duration
           = Some (d, false, iv))
  ∧ ((duration = None ∨ ∃ d, duration = Some d ∧ ¬ 0 < d) →
     ∃ v iv,
       impute_duration self origin destination duration = Some (v, true, iv)
       ∧ (∀ m, route_to_duration_median rm !! (origin, destination) = Some m →
               v = m)
       ∧ (route_to_duration_median rm !! (origin, destination) = None →
          v = global_duration_median rm)).
Proof.
  intros Hrm. split.
  - intros d -> Hd. exists 0. by apply impute_duration_supplied.
  - intros Hcase.
    eexists _, _. split.
    + apply (impute_duration_imputes self rm); [exact Hrm|].
      intros d Hd. destruct Hcase as [Hnone | (d' & Hd' & Hle)]; [congruence|].
      congruence.
    + split.
      * intros m Hm. by rewrite Hm.
      * intros Hm. by rewrite Hm.
Qed.

(** C9.  When [impute_duration] does not impute, which is when the supplied
    duration is strictly greater than 0, its third component is 0; when it
    imputes, its first and third components are equal. *)
Theorem impute_duration_imputed_value
    (self : FlightPriceModel) (origin destination : string)
    (duration : option R) (v : R) (was_imputed : bool) (imputed_value : R) :
  impute_duration self origin destination duration
  = Some (v, was_imputed, imputed_value) →
  (was_imputed = false ↔ ∃ d, duration = Some d ∧ 0 < d)
  ∧ (was_imputed = false → imputed_value = 0)
  ∧ (was_imputed = true → v = imputed_value).
Proof.
  unfold impute_duration. intros H.
  destruct duration as [d|]; [destruct (Rlt_dec 0 d) as [Hd|Hd]|].
  - injection H as <- <- <-. split; [|split]; [|done|done].
    split; [eauto|done].
  - destruct (route_medians self) as [rm|]; [|done]. simpl in H.
    injection H as <- <- <-. split; [|split]; [|done|done].
    split; [done|]. intros (d' & [= ->] & Hd'). contradiction.
  - destruct (route_medians self) as [rm|]; [|done]. simpl in H.
    injection H as <- <- <-. split; [|split]; [|done|done].
    split; [done|]. intros (d' & [=] & _).
Qed.

Lemma impute_duration_cases_witness :
  ∃ iv, impute_duration example_model "Delhi" "Mumbai" None
        = Some (2.25, true, iv).
Proof.
  destruct (impute_duration_cases example_model example_route_medians
              "Delhi" "Mumbai" None eq_refl) as [_ H].
  destruct (H (or_introl eq_refl)) as (v & iv & Heq & Hkey & _).
  exists iv. rewrite Heq, (Hkey 2.25); [reflexivity|].
  apply lookup_insert_eq.
Defined.

Lemma impute_duration_imputed_value_witness :
  (false = false ↔ ∃ d, Some 3 = Some d ∧ 0 < d)
  ∧ (false = false → 0 = 0)
  ∧ (false = true → 3 = 0).
Proof.
  apply (impute_duration_imputed_value example_model "Delhi" "Mumbai"
           (Some 3) 3 false 0).
  apply impute_duration_supplied. lra.
Defined.

(** ** Category normalisation *)

(** One cell after normalisation against a vocabulary. *)
Lemma where_isin_member (allowed : list string) (s : string) :
  s ∈ allowed → where_isin allowed s = s.
Proof. intros H. unfold where_isin. by rewrite bool_decide_eq_true_2. Qed.

Lemma where_isin_outside (allowed : list string) (s : string) :
  s ∉ allowed → where_isin allowed s = "Unknown".
Proof. intros H. unfold where_isin. by rewrite bool_decide_eq_false_2. Qed.

(** An iteration of the loop leaves the other columns alone. *)
Lemma normalize_column_other (df : gmap string (list cell))
    (c col : string) (allowed : list string) :
  c ≠ col → normalize_column df (c, allowed) !! col = df !! col.
Proof.
  intros Hne. unfold normalize_column. simpl.
  destruct (df !! c); [|done]. by rewrite lookup_insert_ne.
Qed.

(** An iteration of the loop rewrites its own column cell by cell. *)
Lemma normalize_column_same (df : gmap string (list cell))
    (col : string) (allowed : list string) :
  normalize_column df (col, allowed) !! col
  = fmap (M := list) (λ c, CStr (where_isin allowed (astype_str c)))
    <$> df !! col.
Proof.
  unfold normalize_column. simpl.
  destruct (df !! col) as [series|] eqn:E; simpl.
  - by rewrite lookup_insert_eq.
  - by rewrite E.
Qed.

(** The whole loop, read at one of its five columns. *)
Lemma normalize_categoricals_lookup (df : gmap string (list cell))
    (col : string) (allowed : list string) :
  (col, allowed) ∈ CATEGORICAL_VOCABULARIES →
  normalize_categoricals df !! col
  = fmap (M := list) (λ c, CStr (where_isin allowed (astype_str c))) <$> df !! col.
Proof.
  intros Hin. unfold normalize_categoricals, CATEGORICAL_VOCABULARIES in *.
  assert (Hdrop : drop_irrelevant df !! col = df !! col).
  { unfold drop_irrelevant.
    repeat (apply elem_of_cons in Hin as [[= -> ->]|Hin];
            [by rewrite !lookup_delete_ne|]).
    by apply elem_of_nil in Hin. }
  rewrite <- Hdrop. generalize (drop_irrelevant df). intros m. simpl.
  repeat (apply elem_of_cons in Hin as [[= -> ->]|Hin];
    [ repeat first
        [ rewrite normalize_column_other by discriminate
        | rewrite normalize_column_same ];
      reflexivity
    | ]).
  by apply elem_of_nil in Hin.
Qed.

(** C6.  On each of the five categorical columns (airline, origin city,
    departure time-band, arrival time-band, destination city) the
    normalisation keeps a raw value that is a member of the column's
    vocabulary, by equality of strings, and replaces every other value, the
    missing one included, by exactly [Unknown]. *)
Theorem normalize_categoricals_cells
    (df : gmap string (list cell)) (col : string) (allowed : list string)
    (series : list cell) :
  (col, allowed) ∈ CATEGORICAL_VOCABULARIES →
  df !! col = Some series →
  ∃ out,
    normalize_categoricals df !! col = Some out
    ∧ length out = length series
    ∧ ∀ (i : nat) (c : cell), series !! i = Some c →
        (∀ s, c = CStr s → s ∈ allowed → out !! i = Some (CStr s))
        ∧ ((∀ s, c = CStr s → s ∉ allowed) →
           out !! i = Some (CStr "Unknown")).
Proof.
  intros Hin Hcol.
  rewrite (normalize_categoricals_lookup df col allowed Hin), Hcol. simpl.
  eexists. split; [reflexivity|]. split; [by rewrite length_fmap|].
  intros i c Hi. rewrite list_lookup_fmap, Hi. simpl. split.
  - intros s -> Hs. simpl. by rewrite where_isin_member.
  - intros Hout. f_equal. f_equal. apply where_isin_outside.
    destruct c as [s|]; simpl.
    + by apply Hout.
    + clear -Hin. unfold CATEGORICAL_VOCABULARIES in Hin.
      repeat (apply elem_of_cons in Hin as [[= -> ->]|Hin];
              [intros Hm; apply (bool_decide_eq_true_2 _) in Hm;
               vm_compute in Hm; discriminate|]).
      by apply elem_of_nil in Hin.
Qed.

Lemma normalize_categoricals_cells_witness :
  ∃ out,
    normalize_categoricals example_raw_frame !! "airline" = Some out
    ∧ length out = length [CStr "Vistara"; CStr "vistara"; CNaN]
    ∧ ∀ (i : nat) (c : cell),
        [CStr "Vistara"; CStr "vistara"; CNaN] !! i = Some c →
        (∀ s, c = CStr s → s ∈ ALLOWED_AIRLINES → out !! i = Some (CStr s))
        ∧ ((∀ s, c = CStr s → s ∉ ALLOWED_AIRLINES) →
           out !! i = Some (CStr "Unknown")).
Proof.
  apply (normalize_categoricals_cells example_raw_frame "airline"
           ALLOWED_AIRLINES).
  - apply list_elem_of_here.
  - apply lookup_insert_eq.
Defined.

(** The airline column of the example: the known carrier stays, the
    carrier in the wrong case and the empty field become [Unknown]. *)
Example example_raw_frame_normalized :
  normalize_categoricals example_raw_frame !! "airline"
  = Some [CStr "Vistara"; CStr "Unknown"; CStr "Unknown"].
Proof.
  rewrite (normalize_categoricals_lookup _ "airline" ALLOWED_AIRLINES)
    by apply list_elem_of_here.
  unfold example_raw_frame. rewrite lookup_insert_eq. reflexivity.
Qed.

(** ** The route statistics table *)

Lemma insert_sorted_length (x : R) (l : list R) :
  length (insert_sorted x l) = S (length l).
Proof.
  induction l as [|y l IH]; simpl; [done|].
  destruct (Rle_dec x y); simpl; by rewrite ?IH.
Qed.

Lemma sort_values_length (l : list R) : length (sort_values l) = length l.
Proof.
  induction l as [|x l IH]; simpl; [done|].
  by rewrite insert_sorted_length, IH.
Qed.

(** A list has a median exactly when it has a value. *)
Lemma median_None (l : list R) : median l = None ↔ l = [].
Proof.
  unfold median. rewrite sort_values_length.
  destruct l as [|x l]; [done|].
  split; [|done]. cbn [length Nat.eqb].
  destruct (Nat.even _); discriminate.
Qed.

Lemma median_is_Some (l : list R) : l ≠ [] → ∃ m, median l = Some m.
Proof.
  intros Hl. destruct (median l) as [m|] eqn:E; [eauto|].
  by apply median_None in E.
Qed.

(** The example of the specification: the median of 2, 4, 6 is 4. *)
Example median_2_4_6 : median [2; 4; 6] = Some 4.
Proof.
  unfold median, sort_values. simpl.
  repeat (destruct (Rle_dec _ _); try lra; simpl).
  reflexivity.
Qed.

(** An even number of values: the mean of the two middle ones. *)
Example median_1_2_3_10 : median [10; 1; 3; 2] = Some 2.5.
Proof.
  unfold median, sort_values. simpl.
  repeat (destruct (Rle_dec _ _); try lra; simpl).
  f_equal. lra.
Qed.

(** The values are sorted before the middle is taken. *)
Lemma insert_sorted_perm (x : R) (l : list R) : insert_sorted x l ≡ₚ x :: l.
Proof.
  induction l as [|y l IH]; simpl; [done|].
  destruct (Rle_dec x y); [done|].
  by rewrite IH, Permutation_swap.
Qed.

Lemma sort_values_perm (l : list R) : sort_values l ≡ₚ l.
Proof.
  induction l as [|x l IH]; simpl; [done|].
  fold (sort_values l). by rewrite insert_sorted_perm, IH.
Qed.

Lemma insert_sorted_sorted (x : R) (l : list R) :
  StronglySorted Rle l → StronglySorted Rle (insert_sorted x l).
Proof.
  induction 1 as [|y l Hl IH Hy]; simpl.
  - repeat constructor.
  - destruct (Rle_dec x y) as [Hle|Hgt].
    + constructor; [by constructor|].
      constructor; [exact Hle|].
      eapply Forall_impl; [exact Hy|]. intros z Hz. simpl in Hz. lra.
    + constructor; [exact IH|].
      rewrite insert_sorted_perm. constructor; [lra|exact Hy].
Qed.

Lemma sort_values_sorted (l : list R) : StronglySorted Rle (sort_values l).
Proof.
  induction l as [|x l IH]; simpl; [constructor|].
  by apply insert_sorted_sorted.
Qed.

(** The group of a pair: the durations of its rows, in row order; a pair
    without a row has no group. *)
Lemma groupby_route_lookup (rows : list Frame.Row) (k : string * string) :
  groupby_route rows !! k
  = match Frame.duration <$> filter (λ r, Frame.key r = k) rows with
    | [] => None
    | vs => Some vs
    end.
Proof.
  induction rows as [|r rows IH]; simpl.
  - by rewrite lookup_empty.
  - fold (groupby_route rows). rewrite filter_cons.
    destruct (decide (Frame.key r = k)) as [->|Hne].
    + rewrite lookup_insert_eq, IH, fmap_cons.
      by destruct (Frame.duration <$> filter _ rows).
    + by rewrite lookup_insert_ne.
Qed.

(** Dropping the rows without a duration does not change the known
    durations of a pair. *)
Lemma known_cons_Some (v : R) (series : list (option R)) :
  known (Some v :: series) = v :: known series.
Proof. reflexivity. Qed.

Lemma known_cons_None (series : list (option R)) :
  known (None :: series) = known series.
Proof. reflexivity. Qed.

Lemma known_dropna (rows : list Frame.Row) (k : string * string) :
  known (Frame.duration <$> filter (λ r, Frame.key r = k) (dropna_duration rows))
  = known (Frame.duration <$> filter (λ r, Frame.key r = k) rows).
Proof.
  unfold dropna_duration.
  induction rows as [|r rows IH]; [done|].
  destruct (Frame.duration r) as [d|] eqn:Hd.
  - rewrite (filter_cons_True (λ r, is_Some (Frame.duration r)))
      by (rewrite Hd; eauto).
    destruct (decide (Frame.key r = k)) as [Hk|Hk].
    + rewrite !(filter_cons_True (λ r, Frame.key r = k)) by done.
      by rewrite !fmap_cons, Hd, !known_cons_Some, IH.
    + by rewrite !(filter_cons_False (λ r, Frame.key r = k)) by done.
  - rewrite (filter_cons_False (λ r, is_Some (Frame.duration r)))
      by (rewrite Hd; apply is_Some_None).
    destruct (decide (Frame.key r = k)) as [Hk|Hk].
    + rewrite (filter_cons_True (λ r, Frame.key r = k)) by done.
      by rewrite fmap_cons, Hd, known_cons_None.
    + by rewrite (filter_cons_False (λ r, Frame.key r = k)) by done.
Qed.

Lemma known_nil_dropna (rows : list Frame.Row) (k : string * string) :
  filter (λ r, Frame.key r = k) (dropna_duration rows) = []
  ↔ known (Frame.duration <$> filter (λ r, Frame.key r = k) rows) = [].
Proof.
  rewrite <- known_dropna. unfold dropna_duration.
  induction rows as [|r rows IH]; [done|].
  destruct (Frame.duration r) as [d|] eqn:Hd.
  - rewrite (filter_cons_True (λ r, is_Some (Frame.duration r)))
      by (rewrite Hd; eauto).
    destruct (decide (Frame.key r = k)) as [Hk|Hk].
    + rewrite !(filter_cons_True (λ r, Frame.key r = k)) by done.
      by rewrite fmap_cons, Hd, known_cons_Some.
    + by rewrite !(filter_cons_False (λ r, Frame.key r = k)) by done.
  - by rewrite (filter_cons_False (λ r, is_Some (Frame.duration r)))
      by (rewrite Hd; apply is_Some_None).
Qed.

(** What the table holds for a pair: the median of the known durations of
    the rows of that pair, and nothing when there is none. *)
Lemma route_table_lookup (df : Frame.t) (k : string * string) :
  "source_city" ∈ Frame.columns df →
  "destination_city" ∈ Frame.columns df →
  "duration" ∈ Frame.columns df →
  route_to_duration_median (build_route_medians df) !! k
  = median (known (Frame.duration
                     <$> filter (λ r, Frame.key r = k) (Frame.rows df))).
Proof.
  intros H1 H2 H3. unfold build_route_medians. simpl.
  rewrite !bool_decide_eq_true_2 by done. simpl.
  rewrite lookup_omap, lookup_fmap, groupby_route_lookup.
  destruct (filter _ (dropna_duration (Frame.rows df))) as [|r rs] eqn:E.
  - apply known_nil_dropna in E. rewrite E. simpl. symmetry.
    by apply median_None.
  - rewrite <- known_dropna, E. simpl. unfold series_median.
    by destruct (median _).
Qed.

Lemma forallb_isna_known (series : list (option R)) :
  forallb isna series = true ↔ known series = [].
Proof.
  unfold known.
  induction series as [|[v|] series IH]; simpl; [done|done|exact IH].
Qed.

(** The global median of a frame that has the three columns. *)
Lemma global_median_lookup (df : Frame.t) :
  "source_city" ∈ Frame.columns df →
  "destination_city" ∈ Frame.columns df →
  "duration" ∈ Frame.columns df →
  global_duration_median (build_route_medians df)
  = default 2 (median (known (Frame.duration <$> Frame.rows df))).
Proof.
  intros H1 H2 H3. unfold build_route_medians. simpl.
  rewrite !bool_decide_eq_true_2 by done. simpl.
  destruct (forallb isna (Frame.duration <$> Frame.rows df)) eqn:E; simpl.
  - apply forallb_isna_known in E. rewrite E. reflexivity.
  - unfold series_median.
    destruct (median_is_Some (known (Frame.duration <$> Frame.rows df)))
      as [m Hm]; [|by rewrite Hm].
    intros Hnil. apply forallb_isna_known in Hnil. congruence.
Qed.

(** A frame without one of the three columns: an empty table and the
    constant. *)
Lemma build_route_medians_without_columns (df : Frame.t) :
  ¬ ("source_city" ∈ Frame.columns df ∧ "destination_city" ∈ Frame.columns df
     ∧ "duration" ∈ Frame.columns df) →
  build_route_medians df = mkRouteMedians ∅ 2.
Proof.
  intros Hn. unfold build_route_medians. simpl.
  destruct (bool_decide ("source_city" ∈ Frame.columns df)) eqn:E1;
    destruct (bool_decide ("destination_city" ∈ Frame.columns df)) eqn:E2;
    destruct (bool_decide ("duration" ∈ Frame.columns df)) eqn:E3;
    simpl; try reflexivity.
  exfalso. apply Hn.
  by apply bool_decide_eq_true in E1, E2, E3.
Qed.

(** C5.  For a training frame that has the origin, destination and duration
    columns, the table maps every pair that has a record with a known
    duration to the median of the known durations of its records, and has
    no key for a pair whose records all lack a duration; the global median
    is the median of all known durations, and is 2 when there is none. *)
Theorem build_route_medians_medians (df : Frame.t) :
  "source_city" ∈ Frame.columns df →
  "destination_city" ∈ Frame.columns df →
  "duration" ∈ Frame.columns df →
  let rm := build_route_medians df in
  let durations_of (k : string * string) :=
    known (Frame.duration <$> filter (λ r, Frame.key r = k) (Frame.rows df)) in
  let all := known (Frame.duration <$> Frame.rows df) in
  (∀ o d, durations_of (o, d) ≠ [] →
     ∃ m, median (durations_of (o, d)) = Some m
          ∧ route_to_duration_median rm !! (o, d) = Some m)
  ∧ (∀ o d, durations_of (o, d) = [] →
       route_to_duration_median rm !! (o, d) = None)
  ∧ (all ≠ [] → median all = Some (global_duration_median rm))
  ∧ (all = [] → global_duration_median rm = 2).
Proof.
  intros H1 H2 H3 rm durations_of all. subst rm.
  repeat split.
  - intros o d Hne. destruct (median_is_Some _ Hne) as [m Hm].
    exists m. split; [exact Hm|].
    by rewrite route_table_lookup.
  - intros o d Hnil. rewrite route_table_lookup by done.
    by apply median_None.
  - intros Hne. rewrite global_median_lookup by done.
    destruct (median_is_Some _ Hne) as [m Hm]. fold all. by rewrite Hm.
  - intros Hnil. rewrite global_median_lookup by done.
    fold all. rewrite Hnil. reflexivity.
Qed.

Lemma build_route_medians_medians_witness :
  let rm := build_route_medians example_frame in
  let durations_of (k : string * string) :=
    known (Frame.duration
             <$> filter (λ r, Frame.key r = k) (Frame.rows example_frame)) in
  let all := known (Frame.duration <$> Frame.rows example_frame) in
  (∀ o d, durations_of (o, d) ≠ [] →
     ∃ m, median (durations_of (o, d)) = Some m
          ∧ route_to_duration_median rm !! (o, d) = Some m)
  ∧ (∀ o d, durations_of (o, d) = [] →
       route_to_duration_median rm !! (o, d) = None)
  ∧ (all ≠ [] → median all = Some (global_duration_median rm))
  ∧ (all = [] → global_duration_median rm = 2).
Proof.
  apply (build_route_medians_medians example_frame);
    unfold example_frame; simpl; set_solver.
Defined.

(** The table of the example frame: 4 for Delhi-Mumbai, nothing for
    Delhi-Chennai, and 4 as the global median. *)
Example example_frame_table :
  route_to_duration_median (build_route_medians example_frame)
    !! ("Delhi", "Mumbai") = Some 4
  ∧ route_to_duration_median (build_route_medians example_frame)
    !! ("Delhi", "Chennai") = None
  ∧ global_duration_median (build_route_medians example_frame) = 4.
Proof.
  assert (Hm : median [2; 6; 4] = Some 4).
  { unfold median, sort_values. simpl.
    repeat (destruct (Rle_dec _ _); try lra; simpl). reflexivity. }
  split; [|split].
  - rewrite route_table_lookup by (unfold example_frame; simpl; set_solver).
    exact Hm.
  - rewrite route_table_lookup by (unfold example_frame; simpl; set_solver).
    reflexivity.
  - rewrite global_median_lookup by (unfold example_frame; simpl; set_solver).
    change (known (Frame.duration <$> Frame.rows example_frame))
      with [2; 6; 4].
    by rewrite Hm.
Qed.

(** The pair Delhi-Mumbai is observed in [example_frame_missing], in a
    record without a duration, and the table has no entry for it. *)
Lemma route_table_skips_untimed_pair :
  Frame.mkRow "Delhi" "Mumbai" None ∈ Frame.rows example_frame_missing
  ∧ route_to_duration_median (build_route_medians example_frame_missing)
      !! ("Delhi", "Mumbai") = None.
Proof.
  split.
  - unfold example_frame_missing. simpl. set_solver.
  - by rewrite route_table_lookup
      by (unfold example_frame_missing; simpl; set_solver).
Qed.

(** ** Loading or training the model *)

(** Both branches of [train_or_load] leave a pipeline in the singleton. *)
Lemma train_or_load_sets_pipeline (lib : Library) (w w' : World) :
  train_or_load lib w = Some w' → is_Some (pipeline (MODEL_SINGLETON w')).
Proof.
  unfold train_or_load, train_fresh. intros H.
  assert (Hfresh :
    ∀ o : option World,
      o = train_fresh lib w → o = Some w' →
      is_Some (pipeline (MODEL_SINGLETON w'))).
  { intros o -> Ho. unfold train_fresh in Ho.
    destruct (csv_file w) as [[t raw]|]; [|done]. simpl in Ho.
    destruct (to_numeric_frame lib _) as [df|]; [|done]. simpl in Ho.
    destruct (fit lib _) as [[fitted names]|]; [|done]. simpl in Ho.
    injection Ho as <-. simpl. eauto. }
  destruct (model_file w) as [[t loaded]|].
  - destruct (Qle_bool _ _).
    + injection H as <-. simpl. eauto.
    + by eapply Hfresh.
  - by eapply Hfresh.
Qed.

(** Once the singleton has a pipeline, [load_or_train_model] returns it and
    touches nothing. *)
Lemma load_or_train_model_ready (lib : Library) (w : World) :
  is_Some (pipeline (MODEL_SINGLETON w)) →
  load_or_train_model lib w = Some (MODEL_SINGLETON w, w).
Proof. intros [p Hp]. unfold load_or_train_model. by rewrite Hp. Qed.

(** After a call that returned, the singleton has a pipeline and is the
    model that was returned. *)
Lemma load_or_train_model_post (lib : Library) (w w1 : World)
    (m1 : FlightPriceModel) :
  load_or_train_model lib w = Some (m1, w1) →
  m1 = MODEL_SINGLETON w1 ∧ is_Some (pipeline m1).
Proof.
  unfold load_or_train_model. intros H.
  destruct (pipeline (MODEL_SINGLETON w)) as [p|] eqn:Hp.
  - injection H as <- <-. rewrite Hp. eauto.
  - destruct (train_or_load lib w) as [w'|] eqn:Ht; [|done].
    simpl in H. injection H as <- <-. split; [done|].
    by eapply train_or_load_sets_pipeline.
Qed.

(** The other branch: an artifact that is at least as recent as the dataset
    is loaded, nothing is fitted, and an artifact without a version gets a
    tag from its modification time. *)
Example load_artifact_without_version :
  let artifact := mkArtifact example_pipeline example_route_medians [] None in
  let w := mkWorld (Some (100%Q, example_raw_frame))
                   (Some ((301 # 2)%Q, artifact)) 200%Q new_model 0 in
  ∃ m w',
    load_or_train_model example_library w = Some (m, w')
    ∧ model_version m = Some "loaded-150"
    ∧ fits w' = 0%nat.
Proof. eexists _, _. repeat split. Qed.

(** C7.  A second call of [load_or_train_model], made after a first call
    that returned and at whatever later time, returns the same model, so
    the same version tag, and changes nothing: no forest is fitted and the
    artifact is not rewritten. *)
Theorem load_or_train_model_idempotent
    (lib : Library) (w w1 : World) (m1 : FlightPriceModel) :
  load_or_train_model lib w = Some (m1, w1) →
  ∀ t : Q,
    ∃ m2 w2,
      load_or_train_model lib (at_time t w1) = Some (m2, w2)
      ∧ model_version m2 = model_version m1
      ∧ m2 = m1
      ∧ w2 = at_time t w1
      ∧ fits w2 = fits w1
      ∧ model_file w2 = model_file w1.
Proof.
  intros H t. apply load_or_train_model_post in H as [-> Hp].
  exists (MODEL_SINGLETON w1), (at_time t w1).
  split; [|done].
  by apply (load_or_train_model_ready lib (at_time t w1)).
Qed.

Lemma load_or_train_model_idempotent_witness :
  ∃ m1 w1,
    load_or_train_model example_library example_world = Some (m1, w1)
    ∧ model_version m1 = Some "rf-200"
    ∧ fits w1 = 1%nat
    ∧ ∃ m2 w2,
        load_or_train_model example_library (at_time 300%Q w1) = Some (m2, w2)
        ∧ model_version m2 = model_version m1
        ∧ m2 = m1
        ∧ w2 = at_time 300%Q w1
        ∧ fits w2 = fits w1
        ∧ model_file w2 = model_file w1.
Proof.
  eexists _, _.
  split; [reflexivity|]. split; [reflexivity|]. split; [reflexivity|].
  exact (load_or_train_model_idempotent example_library example_world
           _ _ eq_refl 300%Q).
Defined.

(** ** The uncertainty interval *)

Lemma np_std_nonneg (l : list R) : 0 <= np_std l.
Proof. unfold np_std. apply sqrt_pos. Qed.

(** The interval is centred on the point estimate. *)
Lemma interval_around_point (p : Pipeline) (features : Row) :
  let '(pt, lower, upper) := pipeline_predict_with_uncertainty p features in
  lower <= pt <= upper.
Proof.
  unfold pipeline_predict_with_uncertainty.
  pose proof (np_std_nonneg ((λ est : Row → R, est features) <$> estimators_ p)).
  lra.
Qed.

Lemma sum_values_cons (x : R) (l : list R) :
  sum_values (x :: l) = x + sum_values l.
Proof. reflexivity. Qed.

Lemma sum_values_squares_nonneg (mu : R) (l : list R) :
  0 <= sum_values ((λ x, (x - mu)²) <$> l).
Proof.
  induction l as [|x l IH].
  - unfold sum_values. simpl. lra.
  - rewrite fmap_cons, sum_values_cons.
    pose proof (Rle_0_sqr (x - mu)). lra.
Qed.

Lemma squared_abs_deviations (mu : R) (l : list R) :
  (λ x, (Rabs (x - mu))²) <$> l = (λ x, (x - mu)²) <$> l.
Proof.
  induction l as [|x l IH]; [done|].
  rewrite !fmap_cons, IH. f_equal. symmetry. apply Rsqr_abs.
Qed.

(** [np_std] is the population standard deviation: it is not negative and
    its square times the number of values is the sum of the squared
    deviations from the mean. *)
Lemma np_std_population (l : list R) :
  l ≠ [] →
  np_mean l * INR (length l) = sum_values l
  ∧ 0 <= np_std l
  ∧ (np_std l)² * INR (length l)
    = sum_values ((λ x, (x - np_mean l)²) <$> l).
Proof.
  intros Hl.
  assert (Hn : 0 < INR (length l)).
  { apply lt_0_INR. destruct l; [done|simpl; lia]. }
  split; [|split].
  - unfold np_mean. field. lra.
  - apply np_std_nonneg.
  - unfold np_std. rewrite squared_abs_deviations.
    rewrite Rsqr_sqrt.
    + unfold np_mean at 1. rewrite length_fmap. field. lra.
    + unfold np_mean at 1. rewrite length_fmap.
      apply Rmult_le_pos; [apply sum_values_squares_nonneg|].
      left. by apply Rinv_0_lt_compat.
Qed.

(** The two trees of the example disagree by 10: their population standard
    deviation is 5, their sample standard deviation is the square root
    of 50. *)
Lemma example_np_std : np_std [0; 10] = 5.
Proof.
  assert (Hmean : np_mean [0; 10] = 5).
  { unfold np_mean, sum_values. simpl.
    replace (1 + 1) with 2 by lra. lra. }
  unfold np_std. rewrite squared_abs_deviations, Hmean.
  replace (np_mean ((λ x, (x - 5)²) <$> [0; 10])) with (5²).
  - apply sqrt_Rsqr. lra.
  - unfold np_mean, sum_values, Rsqr. simpl.
    replace (1 + 1) with 2 by lra. lra.
Qed.

Lemma example_sample_std : sample_std_spec [0; 10] = sqrt 50.
Proof.
  assert (Hmean : np_mean [0; 10] = 5).
  { unfold np_mean, sum_values. simpl.
    replace (1 + 1) with 2 by lra. lra. }
  unfold sample_std_spec. rewrite Hmean. f_equal.
  unfold sum_values, Rsqr. simpl. lra.
Qed.

Lemma sqrt_50_not_5 : sqrt 50 ≠ 5.
Proof.
  intros H. assert (H50 : sqrt 50 * sqrt 50 = 50) by (apply sqrt_sqrt; lra).
  rewrite H in H50. lra.
Qed.

Lemma example_interval :
  pipeline_predict_with_uncertainty example_pipeline example_row
  = (5, 5 - 1.96 * 5, 5 + 1.96 * 5).
Proof.
  unfold pipeline_predict_with_uncertainty, example_pipeline.
  cbn [pipeline_predict estimators_ fmap list_fmap].
  by rewrite example_np_std.
Qed.

(** C3.  The interval of [predict_with_uncertainty] is
    [point - 1.96 s, point + 1.96 s] where [s] is the population standard
    deviation of the predictions of the trees for the row: [s] is not
    negative and [n s^2] is the sum of the squared deviations of the [n]
    tree predictions from their mean. *)
Theorem interval_population_std (p : Pipeline) (features : Row) :
  estimators_ p ≠ [] →
  let trees := (λ est : Row → R, est features) <$> estimators_ p in
  let point := pipeline_predict p features in
  ∃ mu s,
    pipeline_predict_with_uncertainty p features
    = (point, point - 1.96 * s, point + 1.96 * s)
    ∧ mu * INR (length trees) = sum_values trees
    ∧ 0 <= s
    ∧ s² * INR (length trees) = sum_values ((λ x, (x - mu)²) <$> trees).
Proof.
  intros Hne trees point.
  exists (np_mean trees), (np_std trees).
  split; [reflexivity|].
  apply np_std_population. subst trees.
  destruct (estimators_ p); [done|discriminate].
Qed.

Lemma interval_population_std_witness :
  let trees := (λ est : Row → R, est example_row)
                 <$> estimators_ example_pipeline in
  let point := pipeline_predict example_pipeline example_row in
  ∃ mu s,
    pipeline_predict_with_uncertainty example_pipeline example_row
    = (point, point - 1.96 * s, point + 1.96 * s)
    ∧ mu * INR (length trees) = sum_values trees
    ∧ 0 <= s
    ∧ s² * INR (length trees) = sum_values ((λ x, (x - mu)²) <$> trees).
Proof.
  apply (interval_population_std example_pipeline example_row).
  unfold example_pipeline. simpl. discriminate.
Defined.

(** With trees that answer 0 and 10 the lower bound is [5 - 1.96 * 5],
    which is not [5 - 1.96 * sqrt 50], the bound that the sample standard
    deviation gives. *)
Lemma interval_not_sample_std :
  let trees := (λ est : Row → R, est example_row)
                 <$> estimators_ example_pipeline in
  let point := pipeline_predict example_pipeline example_row in
  pipeline_predict_with_uncertainty example_pipeline example_row
  ≠ (point, point - 1.96 * sample_std_spec trees,
     point + 1.96 * sample_std_spec trees).
Proof.
  intros trees point. rewrite example_interval. subst trees point.
  unfold example_pipeline.
  cbn [pipeline_predict estimators_ fmap list_fmap].
  rewrite example_sample_std. intros [= H _].
  apply sqrt_50_not_5. lra.
Qed.

(** The same forest: [predict_with_uncertainty] returns a lower bound
    below zero. *)
Lemma predict_with_uncertainty_negative_lower :
  ∃ pt lower upper,
    predict_with_uncertainty example_model example_row
    = Some (pt, lower, upper)
    ∧ lower < 0.
Proof.
  exists 5, (5 - 1.96 * 5), (5 + 1.96 * 5). split; [|lra].
  unfold predict_with_uncertainty, example_model. simpl pipeline.
  simpl mbind. by rewrite example_interval.
Qed.

(** ** Local contributions *)

Lemma elem_of_insert_desc (x c : Contribution) (l : list Contribution) :
  x ∈ insert_desc c l ↔ x = c ∨ x ∈ l.
Proof.
  induction l as [|y l IH]; simpl.
  - by rewrite elem_of_cons.
  - destruct (Rlt_dec (contribution c) (contribution y)).
    + rewrite !elem_of_cons, IH. tauto.
    + by rewrite elem_of_cons.
Qed.

Lemma elem_of_sort_contribs (x : Contribution) (l : list Contribution) :
  x ∈ sort_contribs l ↔ x ∈ l.
Proof.
  induction l as [|c l IH]; simpl; [done|].
  rewrite elem_of_insert_desc, elem_of_cons. fold (sort_contribs l).
  by rewrite IH.
Qed.

Lemma insert_desc_sorted (c : Contribution) (l : list Contribution) :
  StronglySorted by_magnitude_desc l →
  StronglySorted by_magnitude_desc (insert_desc c l).
Proof.
  induction 1 as [|y l Hl IH Hy]; simpl.
  - repeat constructor.
  - destruct (Rlt_dec (contribution c) (contribution y)) as [Hlt|Hge].
    + constructor; [exact IH|].
      apply Forall_forall. intros x [->|Hx]%elem_of_insert_desc.
      * unfold by_magnitude_desc. lra.
      * by eapply Forall_forall in Hy.
    + constructor; [by constructor|].
      constructor; [unfold by_magnitude_desc; lra|].
      eapply Forall_impl; [exact Hy|].
      unfold by_magnitude_desc. intros x Hx. lra.
Qed.

Lemma sort_contribs_sorted (l : list Contribution) :
  StronglySorted by_magnitude_desc (sort_contribs l).
Proof.
  induction l as [|c l IH]; simpl; [constructor|].
  by apply insert_desc_sorted.
Qed.

Lemma insert_desc_length (c : Contribution) (l : list Contribution) :
  length (insert_desc c l) = S (length l).
Proof.
  induction l as [|y l IH]; simpl; [done|].
  destruct (Rlt_dec _ _); simpl; by rewrite ?IH.
Qed.

Lemma sort_contribs_length (l : list Contribution) :
  length (sort_contribs l) = length l.
Proof.
  induction l as [|c l IH]; simpl; [done|].
  by rewrite insert_desc_length, IH.
Qed.

(** Records with the same magnitude keep the order they were appended in:
    the sort is stable. *)
Example sort_contribs_stable :
  sort_contribs [mkContribution "class" 1 "+"; mkContribution "stops" 3 "-";
                 mkContribution "days_left" 1 "-"]
  = [mkContribution "stops" 3 "-"; mkContribution "class" 1 "+";
     mkContribution "days_left" 1 "-"].
Proof.
  unfold sort_contribs. simpl.
  repeat (destruct (Rlt_dec _ _); try lra; simpl).
  reflexivity.
Qed.

(** Every group names columns of the frame: toggling it succeeds. *)
Lemma toggle_group (instance base : Row) (g : string * list string) :
  g ∈ groups → ∃ variant, toggle instance base g.2 = Some variant.
Proof.
  unfold groups. intros Hg.
  repeat (apply elem_of_cons in Hg as [->|Hg]; [eexists; reflexivity|]).
  by apply elem_of_nil in Hg.
Qed.

(** The record of one group. *)
Lemma contribution_of_group (self : FlightPriceModel) (p : Pipeline)
    (instance base variant : Row) (base_pred : R) (g : string * list string) :
  pipeline self = Some p →
  toggle instance base g.2 = Some variant →
  contribution_of self instance base base_pred g
  = Some (mkContribution g.1
            (Rabs (pipeline_predict p variant - base_pred))
            (if Rge_dec (pipeline_predict p variant - base_pred) 0
             then "+" else "-")).
Proof.
  intros Hp Ht. unfold contribution_of, predict_with_uncertainty.
  rewrite Ht, Hp. reflexivity.
Qed.

(** [local_contributions] returns for a model that has a pipeline and
    route medians: the first five of the sorted records of the groups. *)
Lemma local_contributions_unfold (self : FlightPriceModel) (p : Pipeline)
    (rm : RouteMedians) (instance : Row) :
  pipeline self = Some p →
  route_medians self = Some rm →
  let base := baseline rm instance in
  let base_pred := pipeline_predict p base in
  ∃ contribs,
    Forall2 (λ g c, contribution_of self instance base base_pred g = Some c)
            groups contribs
    ∧ local_contributions self instance
      = Some (take 5 (sort_contribs contribs)).
Proof.
  intros Hp Hrm base base_pred.
  destruct (mapM (contribution_of self instance base base_pred) groups)
    as [contribs|] eqn:Hm.
  - exists contribs. split; [by apply mapM_Some_1|].
    unfold local_contributions, predict_with_uncertainty.
    rewrite Hp, Hrm.
    cbn [mbind option_bind pipeline_predict_with_uncertainty].
    fold base. fold base_pred. by rewrite Hm.
  - exfalso.
    assert (Hs : is_Some (mapM (contribution_of self instance base base_pred)
                            groups)).
    { apply mapM_is_Some_2, Forall_forall. intros g Hg.
      destruct (toggle_group instance base g Hg) as [variant Hv].
      simpl. erewrite contribution_of_group by done. eauto. }
    rewrite Hm in Hs. by destruct Hs.
Qed.

(** The groups have distinct names. *)
Lemma groups_name_inj (g g' : string * list string) :
  g ∈ groups → g' ∈ groups → g.1 = g'.1 → g = g'.
Proof.
  unfold groups. intros Hg Hg' Heq.
  repeat (apply elem_of_cons in Hg as [->|Hg];
    [ repeat (apply elem_of_cons in Hg' as [->|Hg'];
              [first [reflexivity | discriminate Heq]|]);
      by apply elem_of_nil in Hg'
    | ]).
  by apply elem_of_nil in Hg.
Qed.

(** A record of the result is the record of one of the groups. *)
Lemma local_contributions_elem (self : FlightPriceModel) (p : Pipeline)
    (rm : RouteMedians) (instance : Row) (out : list Contribution)
    (c : Contribution) :
  pipeline self = Some p →
  route_medians self = Some rm →
  local_contributions self instance = Some out →
  c ∈ out →
  ∃ g, g ∈ groups
       ∧ contribution_of self instance (baseline rm instance)
           (pipeline_predict p (baseline rm instance)) g = Some c.
Proof.
  intros Hp Hrm Hout Hc.
  destruct (local_contributions_unfold self p rm instance Hp Hrm)
    as (contribs & Hall & Heq).
  rewrite Heq in Hout. injection Hout as <-.
  apply subseteq_take in Hc.
  apply (proj1 (elem_of_sort_contribs _ _)) in Hc.
  apply list_elem_of_lookup in Hc as [i Hi].
  destruct (Forall2_lookup_r _ _ _ _ _ Hall Hi) as (g & Hg & Hgc).
  exists g. split; [|exact Hgc].
  apply list_elem_of_lookup. eauto.
Qed.

(** C4.  [local_contributions] returns at most 5 records, in descending
    order of magnitude; the magnitude of each record is the absolute value
    of the difference between the prediction for the baseline with the
    columns of the record's feature group restored and the prediction for
    the baseline, and its direction is [+] or [-]. *)
Theorem local_contributions_top5
    (self : FlightPriceModel) (p : Pipeline) (rm : RouteMedians)
    (instance : Row) :
  pipeline self = Some p →
  route_medians self = Some rm →
  let base := baseline rm instance in
  ∃ out,
    local_contributions self instance = Some out
    ∧ (length out <= 5)%nat
    ∧ StronglySorted by_magnitude_desc out
    ∧ ∀ c, c ∈ out →
        ∃ g variant,
          g ∈ groups
          ∧ feature c = g.1
          ∧ toggle instance base g.2 = Some variant
          ∧ contribution c
            = Rabs (pipeline_predict p variant - pipeline_predict p base)
          ∧ (direction c = "+" ∨ direction c = "-").
Proof.
  intros Hp Hrm base.
  destruct (local_contributions_unfold self p rm instance Hp Hrm)
    as (contribs & Hall & Heq).
  eexists. split; [exact Heq|]. split; [|split].
  - rewrite length_take. lia.
  - pose proof (sort_contribs_sorted contribs) as Hs.
    rewrite <- (take_drop 5 (sort_contribs contribs)) in Hs.
    by apply StronglySorted_app_1_l in Hs.
  - intros c Hc.
    destruct (local_contributions_elem self p rm instance _ c Hp Hrm Heq Hc)
      as (g & Hg & Hgc).
    destruct (toggle_group instance base g Hg) as [variant Hv].
    exists g, variant.
    rewrite (contribution_of_group self p instance _ variant _ g Hp Hv) in Hgc.
    injection Hgc as <-. simpl.
    repeat split; try done.
    destruct (Rge_dec _ _); [by left|by right].
Qed.

Lemma local_contributions_top5_witness :
  let base := baseline example_route_medians example_row in
  ∃ out,
    local_contributions example_model example_row = Some out
    ∧ (length out <= 5)%nat
    ∧ StronglySorted by_magnitude_desc out
    ∧ ∀ c, c ∈ out →
        ∃ g variant,
          g ∈ groups
          ∧ feature c = g.1
          ∧ toggle example_row base g.2 = Some variant
          ∧ contribution c
            = Rabs (pipeline_predict example_pipeline variant
                    - pipeline_predict example_pipeline base)
          ∧ (direction c = "+" ∨ direction c = "-").
Proof.
  exact (local_contributions_top5 example_model example_pipeline
           example_route_medians example_row eq_refl eq_refl).
Defined.

(** C8.  The baseline of [local_contributions] has airline, departure
    time-band and arrival time-band equal to [Unknown] and the global
    median as duration; class, stops, days-left, origin city and
    destination city are those of the input. *)
Theorem baseline_frame (rm : RouteMedians) (instance : Row) :
  let base := baseline rm instance in
  airline base = "Unknown"
  ∧ departure_time base = "Unknown"
  ∧ arrival_time base = "Unknown"
  ∧ duration base = global_duration_median rm
  ∧ class base = class instance
  ∧ stops base = stops instance
  ∧ days_left base = days_left instance
  ∧ source_city base = source_city instance
  ∧ destination_city base = destination_city instance.
Proof. repeat split. Qed.

(** C10.  A feature group whose restored variant is predicted like the
    baseline gets magnitude 0 and direction [+], in the record built for it
    and so in the result when the record is among the first five. *)
Theorem zero_delta_reported_plus
    (self : FlightPriceModel) (p : Pipeline) (rm : RouteMedians)
    (instance : Row) (g : string * list string) (variant : Row) :
  pipeline self = Some p →
  route_medians self = Some rm →
  g ∈ groups →
  let base := baseline rm instance in
  toggle instance base g.2 = Some variant →
  pipeline_predict p variant = pipeline_predict p base →
  contribution_of self instance base (pipeline_predict p base) g
  = Some (mkContribution g.1 0 "+")
  ∧ ∀ out c,
      local_contributions self instance = Some out →
      c ∈ out → feature c = g.1 →
      contribution c = 0 ∧ direction c = "+".
Proof.
  intros Hp Hrm Hg base Hv Hzero.
  assert (Hrec : contribution_of self instance base (pipeline_predict p base) g
                 = Some (mkContribution g.1 0 "+")).
  { rewrite (contribution_of_group self p instance base variant _ g Hp Hv).
    rewrite Hzero, Rminus_diag, Rabs_R0.
    destruct (Rge_dec 0 0) as [_|Hn]; [reflexivity|]. exfalso. lra. }
  split; [exact Hrec|].
  intros out c Hout Hc Hname.
  destruct (local_contributions_elem self p rm instance out c Hp Hrm Hout Hc)
    as (g' & Hg' & Hgc).
  assert (g' = g) as ->.
  { apply groups_name_inj; [done|done|].
    destruct (toggle_group instance base g' Hg') as [variant' Hv'].
    rewrite (contribution_of_group self p instance _ variant' _ g' Hp Hv')
      in Hgc.
    injection Hgc as <-. by rewrite <- Hname. }
  fold base in Hgc. rewrite Hrec in Hgc. by injection Hgc as <-.
Qed.

Lemma zero_delta_reported_plus_witness :
  let base := baseline example_route_medians example_row in
  contribution_of example_model example_row base
    (pipeline_predict example_pipeline base) ("class", ["class"])
  = Some (mkContribution "class" 0 "+")
  ∧ ∀ out c,
      local_contributions example_model example_row = Some out →
      c ∈ out → feature c = "class" →
      contribution c = 0 ∧ direction c = "+".
Proof.
  refine (zero_delta_reported_plus example_model example_pipeline
            example_route_medians example_row ("class", ["class"]) _
            eq_refl eq_refl _ eq_refl eq_refl).
  apply list_elem_of_here.
Defined.

(** ** The response of the prediction endpoint *)

Lemma py_max_zero (a : R) : 0 <= py_max a 0 ∧ a <= py_max a 0.
Proof. unfold py_max. destruct (Rlt_dec a 0); lra. Qed.

Lemma py_max_mono (a b : R) : a <= b → py_max a 0 <= py_max b 0.
Proof.
  unfold py_max. intros Hab.
  destruct (Rlt_dec a 0); destruct (Rlt_dec b 0); lra.
Qed.

Lemma py_max_nonneg (a : R) : 0 <= a → py_max a 0 = a.
Proof. unfold py_max. intros Ha. destruct (Rlt_dec a 0); lra. Qed.

(** What a response of [predict] is made of. *)
Lemma predict_response (lib : Library) (w w' : World) (payload : Request.t)
    (resp : PredictResponse) :
  predict lib w payload = Some (resp, w') →
  ∃ model X lower upper,
    load_or_train_model lib w = Some (model, w')
    ∧ predict_with_uncertainty model X
      = Some (predicted_price resp, lower, upper)
    ∧ lower_bound resp = py_max lower 0
    ∧ upper_bound resp = py_max upper 0
    ∧ local_contributions model X = Some (top_contributors resp).
Proof.
  unfold predict. intros H.
  destruct (load_or_train_model lib w) as [[model w1]|]; [|done].
  cbn [mbind option_bind] in H.
  destruct (impute_duration model _ _ _) as [[[d imputed] iv]|]; [|done].
  cbn [mbind option_bind] in H.
  destruct (STOPS_MAP !! Request.stops payload) as [stops|]; [|done].
  cbn [mbind option_bind] in H.
  match type of H with
  | context [predict_with_uncertainty model ?X] =>
      exists model, X;
      destruct (predict_with_uncertainty model X) as [[[pt lower] upper]|];
      [|done]
  end.
  cbn [mbind option_bind] in H.
  destruct (local_contributions model _) as [contribs|]; [|done].
  cbn [mbind option_bind] in H.
  injection H as <- <-. exists lower, upper. done.
Qed.

(** [predict] returns when the model is in place and the stop label is one
    of the three. *)
Lemma predict_returns (lib : Library) (w : World) (payload : Request.t)
    (p : Pipeline) (rm : RouteMedians) :
  pipeline (MODEL_SINGLETON w) = Some p →
  route_medians (MODEL_SINGLETON w) = Some rm →
  Request.stops payload ∈ ALLOWED_STOPS →
  ∃ resp, predict lib w payload = Some (resp, w).
Proof.
  intros Hp Hrm Hstops. unfold predict.
  rewrite load_or_train_model_ready by (rewrite Hp; eauto).
  cbn [mbind option_bind].
  assert (Himp : ∃ d b iv,
    impute_duration (MODEL_SINGLETON w) (Request.source_city payload)
      (Request.destination_city payload) (Request.duration payload)
    = Some (d, b, iv)).
  { unfold impute_duration. rewrite Hrm. cbn [mbind option_bind].
    destruct (Request.duration payload) as [d|];
      [destruct (Rlt_dec 0 d)|]; eauto. }
  destruct Himp as (d & b & iv & ->). cbn [mbind option_bind].
  assert (Hs : ∃ n, STOPS_MAP !! Request.stops payload = Some n).
  { unfold ALLOWED_STOPS in Hstops.
    repeat (apply elem_of_cons in Hstops as [->|Hstops];
            [eexists; reflexivity|]).
    by apply elem_of_nil in Hstops. }
  destruct Hs as [n ->]. cbn [mbind option_bind].
  unfold predict_with_uncertainty at 1. rewrite Hp.
  cbn [mbind option_bind pipeline_predict_with_uncertainty].
  match goal with
  | |- context [local_contributions ?m ?X] =>
      destruct (local_contributions_unfold m p rm X Hp Hrm)
        as (contribs & _ & ->)
  end.
  cbn [mbind option_bind]. eauto.
Qed.

(** C2.  [predict_with_uncertainty] returns [lower <= point <= upper] and
    does not clamp.  The response that [predict] builds from it reports
    [max(lower, 0)] and [max(upper, 0)]: both reported bounds are at least
    0, the reported lower bound is at most the reported upper bound, the
    point estimate is at most the reported upper bound, and the reported
    lower bound is at most the point estimate when that is not negative. *)
Theorem reported_bounds :
  (∀ (self : FlightPriceModel) (features : Row) (pt lower upper : R),
     predict_with_uncertainty self features = Some (pt, lower, upper) →
     lower <= pt <= upper)
  ∧ (∀ (lib : Library) (w w' : World) (payload : Request.t)
       (resp : PredictResponse),
       predict lib w payload = Some (resp, w') →
       (∃ model X lower upper,
          predict_with_uncertainty model X
          = Some (predicted_price resp, lower, upper)
          ∧ lower_bound resp = py_max lower 0
          ∧ upper_bound resp = py_max upper 0)
       ∧ 0 <= lower_bound resp
       ∧ 0 <= upper_bound resp
       ∧ lower_bound resp <= upper_bound resp
       ∧ predicted_price resp <= upper_bound resp
       ∧ (0 <= predicted_price resp →
          lower_bound resp <= predicted_price resp)).
Proof.
  assert (Horder :
    ∀ (self : FlightPriceModel) (features : Row) (pt lower upper : R),
      predict_with_uncertainty self features = Some (pt, lower, upper) →
      lower <= pt <= upper).
  { intros self features pt lower upper H.
    unfold predict_with_uncertainty in H.
    destruct (pipeline self) as [p|]; [|done].
    cbn [mbind option_bind] in H.
    pose proof (interval_around_point p features) as Hi.
    destruct (pipeline_predict_with_uncertainty p features) as [[a b] c].
    by injection H as <- <- <-. }
  split; [exact Horder|].
  intros lib w w' payload resp H.
  destruct (predict_response lib w w' payload resp H)
    as (model & X & lower & upper & _ & Hpu & Hlo & Hup & _).
  pose proof (Horder model X _ lower upper Hpu) as [Hl Hu].
  pose proof (py_max_zero lower) as [Hl0 Hl1].
  pose proof (py_max_zero upper) as [Hu0 Hu1].
  split; [by exists model, X, lower, upper|].
  rewrite Hlo, Hup. repeat split; try lra.
  - apply py_max_mono. lra.
  - intros Hpt.
    rewrite <- (py_max_nonneg (predicted_price resp) Hpt).
    by apply py_max_mono.
Qed.

Lemma reported_bounds_witness :
  ∃ resp w',
    predict example_library example_ready_world example_request
    = Some (resp, w')
    ∧ 0 <= lower_bound resp
    ∧ 0 <= upper_bound resp
    ∧ lower_bound resp <= upper_bound resp
    ∧ predicted_price resp <= upper_bound resp
    ∧ (0 <= predicted_price resp → lower_bound resp <= predicted_price resp).
Proof.
  destruct (predict_returns example_library example_ready_world
              example_request example_pipeline example_route_medians
              eq_refl eq_refl)
    as [resp Hresp].
  { unfold example_request, ALLOWED_STOPS. simpl. apply list_elem_of_here. }
  exists resp, example_ready_world. split; [exact Hresp|].
  exact (proj2 (proj2 reported_bounds example_library example_ready_world
                  example_ready_world example_request resp Hresp)).
Defined.

(** The end-to-end example: the request without duration and airline gets
    the route median 2.25 as duration; the lower bound [5 - 1.96 * 5] of
    the forest is reported as 0. *)
Example example_response :
  ∃ resp,
    predict example_library example_ready_world example_request
    = Some (resp, example_ready_world)
    ∧ predicted_price resp = 5
    ∧ lower_bound resp = 0
    ∧ upper_bound resp = 5 + 1.96 * 5
    ∧ assumptions_used resp !! "duration" = Some "route_median"
    ∧ assumptions_used resp !! "airline" = Some "default_unknown".
Proof.
  destruct (local_contributions_unfold example_model example_pipeline
              example_route_medians
              (mkRow "Delhi" "Mumbai" 0 0 10 2.25 "Unknown" "Unknown" "Unknown")
              eq_refl eq_refl)
    as (contribs & _ & Hc).
  assert (Himp : impute_duration example_model "Delhi" "Mumbai" None
                 = Some (2.25, true, 2.25)).
  { rewrite (impute_duration_imputes example_model example_route_medians)
      by done.
    unfold example_route_medians. simpl route_to_duration_median.
    by rewrite lookup_insert_eq. }
  eexists. split.
  - unfold predict, example_request.
    cbn [Request.airline Request.departure_time Request.arrival_time
         Request.source_city Request.destination_city Request.duration
         Request.stops Request.cabin_class Request.days_left or_unknown].
    rewrite load_or_train_model_ready by (simpl; eauto).
    cbn [mbind option_bind MODEL_SINGLETON example_ready_world].
    rewrite Himp. cbn [mbind option_bind].
    change (STOPS_MAP !! "zero") with (Some 0%Z).
    cbn [mbind option_bind String.eqb Ascii.eqb Bool.eqb].
    unfold predict_with_uncertainty at 1.
    cbn [pipeline example_model mbind option_bind
         pipeline_predict_with_uncertainty].
    rewrite Hc. cbn [mbind option_bind].
    reflexivity.
  - cbn [predicted_price lower_bound upper_bound assumptions_used].
    unfold example_pipeline.
    cbn [pipeline_predict estimators_ fmap list_fmap].
    rewrite example_np_std.
    split; [reflexivity|]. split; [|split].
    + unfold py_max. destruct (Rlt_dec _ _); [reflexivity|lra].
    + unfold py_max. destruct (Rlt_dec _ _); [lra|reflexivity].
    + split; reflexivity.
Qed.

(** * Further properties of the code *)

(** ** Medians and the route table *)

Lemma nth_sort_values_elem (l : list R) (i : nat) :
  (i < length l)%nat → nth i (sort_values l) 0 ∈ l.
Proof.
  intros Hi. rewrite <- (sort_values_perm l) at 2.
  apply list_elem_of_In, nth_In. by rewrite sort_values_length.
Qed.

(** A property of values that the mean of two values keeps is kept by the
    median. *)
Lemma median_convex (P : R → Prop) (l : list R) (m : R) :
  (∀ x y, P x → P y → P ((x + y) / 2)) →
  Forall P l → median l = Some m → P m.
Proof.
  intros Hmid Hall Hm. unfold median in Hm.
  rewrite sort_values_length in Hm.
  destruct (Nat.eqb (length l) 0) eqn:E; [done|].
  apply Nat.eqb_neq in E.
  assert (Hhalf : (length l / 2 < length l)%nat)
    by (apply Nat.div_lt; lia).
  assert (Helem : ∀ i, (i < length l)%nat → P (nth i (sort_values l) 0)).
  { intros i Hi. eapply Forall_forall; [exact Hall|].
    by apply nth_sort_values_elem. }
  destruct (Nat.even (length l)); apply (inj Some) in Hm; rewrite <- Hm.
  - apply Hmid; apply Helem; lia.
  - by apply Helem.
Qed.

Lemma median_bounds (a b : R) (l : list R) (m : R) :
  Forall (λ x, a <= x <= b) l → median l = Some m → a <= m <= b.
Proof.
  apply (median_convex (λ x, a <= x <= b)). intros x y Hx Hy. lra.
Qed.

Lemma median_positive (l : list R) (m : R) :
  Forall (λ x, 0 < x) l → median l = Some m → 0 < m.
Proof.
  apply (median_convex (λ x, 0 < x)). intros x y Hx Hy. lra.
Qed.

(** A known duration of the rows of a pair is the duration of a row. *)
Lemma known_durations_Forall (P : R → Prop) (rows : list Frame.Row)
    (Q' : Frame.Row → Prop) `{∀ r, Decision (Q' r)} :
  (∀ r x, r ∈ rows → Frame.duration r = Some x → P x) →
  Forall P (known (Frame.duration <$> filter Q' rows)).
Proof.
  intros Hrows. apply Forall_forall. intros x Hx.
  unfold known in Hx.
  apply list_elem_of_omap in Hx as (o & Ho & ->).
  apply list_elem_of_fmap in Ho as (r & Hr & Hin).
  apply list_elem_of_filter in Hin as [_ Hin].
  by eapply Hrows.
Qed.

Lemma known_all_durations_Forall (P : R → Prop) (rows : list Frame.Row) :
  (∀ r x, r ∈ rows → Frame.duration r = Some x → P x) →
  Forall P (known (Frame.duration <$> rows)).
Proof.
  intros Hrows. apply Forall_forall. intros x Hx.
  unfold known in Hx.
  apply list_elem_of_omap in Hx as (o & Ho & ->).
  apply list_elem_of_fmap in Ho as (r & Hr & Hin).
  by eapply Hrows.
Qed.

(** X1.  The medians of the table lie within the range of the known
    durations of the frame, and so does the global median when the frame
    has a known duration. *)
Theorem route_medians_within_range (df : Frame.t) (a b : R) :
  "source_city" ∈ Frame.columns df →
  "destination_city" ∈ Frame.columns df →
  "duration" ∈ Frame.columns df →
  (∀ r x, r ∈ Frame.rows df → Frame.duration r = Some x → a <= x <= b) →
  (∀ k m, route_to_duration_median (build_route_medians df) !! k = Some m →
          a <= m <= b)
  ∧ (known (Frame.duration <$> Frame.rows df) ≠ [] →
     a <= global_duration_median (build_route_medians df) <= b).
Proof.
  intros H1 H2 H3 Hrange. split.
  - intros k m Hk. rewrite route_table_lookup in Hk by done.
    eapply median_bounds; [|exact Hk].
    by apply known_durations_Forall.
  - intros Hne. rewrite global_median_lookup by done.
    destruct (median_is_Some _ Hne) as [m Hm]. rewrite Hm. simpl.
    eapply median_bounds; [|exact Hm].
    by apply known_all_durations_Forall.
Qed.

Lemma example_frame_durations (r : Frame.Row) (x : R) :
  r ∈ Frame.rows example_frame → Frame.duration r = Some x → 2 <= x <= 6.
Proof.
  unfold example_frame. simpl. intros Hr Hx.
  repeat (apply elem_of_cons in Hr as [->|Hr];
          [simpl in Hx; try discriminate; injection Hx as <-; lra|]).
  by apply elem_of_nil in Hr.
Qed.

Lemma example_frame_columns :
  "source_city" ∈ Frame.columns example_frame
  ∧ "destination_city" ∈ Frame.columns example_frame
  ∧ "duration" ∈ Frame.columns example_frame.
Proof. unfold example_frame. simpl. set_solver. Qed.

Lemma route_medians_within_range_witness :
  (∀ k m,
     route_to_duration_median (build_route_medians example_frame) !! k = Some m →
     2 <= m <= 6)
  ∧ (known (Frame.duration <$> Frame.rows example_frame) ≠ [] →
     2 <= global_duration_median (build_route_medians example_frame) <= 6).
Proof.
  destruct example_frame_columns as (H1 & H2 & H3).
  exact (route_medians_within_range example_frame 2 6 H1 H2 H3
           example_frame_durations).
Defined.

Lemma Rle_antisymmetric : AntiSymm (=) Rle.
Proof. intros x y Hxy Hyx. by apply Rle_antisym. Qed.

Lemma sort_values_Permutation (l l' : list R) :
  l ≡ₚ l' → sort_values l = sort_values l'.
Proof.
  intros Hperm.
  apply (StronglySorted_unique Rle (AntiSymm0 := Rle_antisymmetric));
    [apply sort_values_sorted..|].
  by rewrite !sort_values_perm.
Qed.

(** The median does not depend on the order of the values. *)
Lemma median_Permutation (l l' : list R) : l ≡ₚ l' → median l = median l'.
Proof.
  intros Hperm. unfold median. by rewrite (sort_values_Permutation l l').
Qed.

Lemma route_medians_eq (rm rm' : RouteMedians) :
  route_to_duration_median rm = route_to_duration_median rm' →
  global_duration_median rm = global_duration_median rm' →
  rm = rm'.
Proof. destruct rm, rm'. simpl. by intros -> ->. Qed.

(** X2.  The route statistics do not depend on the order of the rows of
    the training frame. *)
Theorem build_route_medians_row_order (df df' : Frame.t) :
  Frame.columns df = Frame.columns df' →
  Frame.rows df ≡ₚ Frame.rows df' →
  build_route_medians df = build_route_medians df'.
Proof.
  intros Hcols Hrows.
  destruct (decide ("source_city" ∈ Frame.columns df
                    ∧ "destination_city" ∈ Frame.columns df
                    ∧ "duration" ∈ Frame.columns df)) as [(H1 & H2 & H3)|Hn].
  - apply route_medians_eq.
    + apply map_eq. intros k.
      rewrite !route_table_lookup by (rewrite <- ?Hcols; done).
      apply median_Permutation. unfold known. by rewrite Hrows.
    + rewrite !global_median_lookup by (rewrite <- ?Hcols; done).
      f_equal. apply median_Permutation. unfold known. by rewrite Hrows.
  - rewrite !build_route_medians_without_columns;
      [done | by rewrite <- Hcols | done].
Qed.

Lemma build_route_medians_row_order_witness :
  build_route_medians example_frame
  = build_route_medians
      (Frame.mk ["source_city"; "destination_city"; "duration"]
         [Frame.mkRow "Delhi" "Chennai" None;
          Frame.mkRow "Delhi" "Mumbai" (Some 2);
          Frame.mkRow "Delhi" "Mumbai" (Some 6);
          Frame.mkRow "Delhi" "Mumbai" (Some 4)]).
Proof.
  apply build_route_medians_row_order; [reflexivity|].
  unfold example_frame. simpl. apply Permutation_swap.
Defined.

(** X3.  With route statistics built from a frame whose known durations are
    all positive, the duration that [impute_duration] returns is positive,
    whatever the route and the supplied duration. *)
Theorem imputed_duration_positive
    (self : FlightPriceModel) (df : Frame.t) (origin destination : string)
    (duration : option R) (v : R) (was_imputed : bool) (imputed_value : R) :
  (∀ r x, r ∈ Frame.rows df → Frame.duration r = Some x → 0 < x) →
  route_medians self = Some (build_route_medians df) →
  impute_duration self origin destination duration
  = Some (v, was_imputed, imputed_value) →
  0 < v.
Proof.
  intros Hpos Hrm H.
  assert (Htable : ∀ k m,
    route_to_duration_median (build_route_medians df) !! k = Some m → 0 < m).
  { intros k m Hk.
    destruct (decide ("source_city" ∈ Frame.columns df
                      ∧ "destination_city" ∈ Frame.columns df
                      ∧ "duration" ∈ Frame.columns df)) as [(H1 & H2 & H3)|Hn].
    - rewrite route_table_lookup in Hk by done.
      eapply median_positive; [|exact Hk].
      by apply known_durations_Forall.
    - rewrite build_route_medians_without_columns in Hk by done.
      simpl in Hk. by rewrite lookup_empty in Hk. }
  assert (Hglobal : 0 < global_duration_median (build_route_medians df)).
  { destruct (decide ("source_city" ∈ Frame.columns df
                      ∧ "destination_city" ∈ Frame.columns df
                      ∧ "duration" ∈ Frame.columns df)) as [(H1 & H2 & H3)|Hn].
    - rewrite global_median_lookup by done.
      destruct (median _) as [m|] eqn:Hm; simpl; [|lra].
      eapply median_positive; [|exact Hm].
      by apply known_all_durations_Forall.
    - rewrite build_route_medians_without_columns by done. simpl. lra. }
  assert (Hfrom :
    ∀ o : option (R * bool * R),
      o = (rm ← route_medians self;
           Some (match route_to_duration_median rm !! (origin, destination) with
                 | Some m => m
                 | None => global_duration_median rm
                 end, true,
                 match route_to_duration_median rm !! (origin, destination) with
                 | Some m => m
                 | None => global_duration_median rm
                 end)) →
      o = Some (v, was_imputed, imputed_value) → 0 < v).
  { intros o -> Ho. rewrite Hrm in Ho. simpl in Ho.
    destruct (route_to_duration_median (build_route_medians df)
                !! (origin, destination)) as [m|] eqn:Hk;
      injection Ho as <- <- <-; [by eapply Htable|done]. }
  unfold impute_duration in H.
  destruct duration as [d|]; [destruct (Rlt_dec 0 d) as [Hd|Hd]|].
  - by injection H as <- <- <-.
  - by eapply Hfrom.
  - by eapply Hfrom.
Qed.

Lemma example_frame_positive (r : Frame.Row) (x : R) :
  r ∈ Frame.rows example_frame → Frame.duration r = Some x → 0 < x.
Proof.
  intros Hr Hx. pose proof (example_frame_durations r x Hr Hx). lra.
Qed.

Lemma imputed_duration_positive_witness :
  impute_duration example_built_model "Delhi" "Chennai" (Some (-1))
  = Some (4, true, 4)
  ∧ 0 < 4.
Proof.
  assert (H : impute_duration example_built_model "Delhi" "Chennai" (Some (-1))
              = Some (4, true, 4)).
  { rewrite (impute_duration_imputes example_built_model
               (build_route_medians example_frame));
      [|reflexivity|intros d [= <-]; lra].
    destruct example_frame_table as (_ & -> & ->). reflexivity. }
  split; [exact H|].
  exact (imputed_duration_positive example_built_model example_frame
           "Delhi" "Chennai" (Some (-1)) 4 true 4
           example_frame_positive eq_refl H).
Defined.

(** ** The records of [local_contributions] *)

Lemma insert_desc_perm (c : Contribution) (l : list Contribution) :
  insert_desc c l ≡ₚ c :: l.
Proof.
  induction l as [|y l IH]; simpl; [done|].
  destruct (Rlt_dec _ _); [|done].
  by rewrite IH, Permutation_swap.
Qed.

Lemma sort_contribs_perm (l : list Contribution) : sort_contribs l ≡ₚ l.
Proof.
  induction l as [|c l IH]; simpl; [done|].
  fold (sort_contribs l). by rewrite insert_desc_perm, IH.
Qed.

(** The record of a group whose variant is predicted like the baseline. *)
Lemma contribution_of_unchanged (self : FlightPriceModel) (p : Pipeline)
    (instance base variant : Row) (g : string * list string) :
  pipeline self = Some p →
  toggle instance base g.2 = Some variant →
  pipeline_predict p variant = pipeline_predict p base →
  contribution_of self instance base (pipeline_predict p base) g
  = Some (mkContribution g.1 0 "+").
Proof.
  intros Hp Hv Hzero.
  rewrite (contribution_of_group self p instance base variant _ g Hp Hv).
  rewrite Hzero, Rminus_diag, Rabs_R0.
  destruct (Rge_dec 0 0) as [_|Hn]; [reflexivity|]. exfalso. lra.
Qed.

(** The nine records, in the order of the groups: the records of class,
    stops, days-left, origin and destination are zero, because the baseline
    already has the values of the input in these columns. *)
Lemma contribs_structure (self : FlightPriceModel) (p : Pipeline)
    (rm : RouteMedians) (instance : Row) :
  pipeline self = Some p →
  route_medians self = Some rm →
  let base := baseline rm instance in
  let record (g : string * list string) :=
    contribution_of self instance base (pipeline_predict p base) g in
  ∃ c4 c5 c7 c8,
    record ("duration", ["duration"]) = Some c4
    ∧ record ("airline", ["airline"]) = Some c5
    ∧ record ("departure_time", ["departure_time"]) = Some c7
    ∧ record ("arrival_time", ["arrival_time"]) = Some c8
    ∧ local_contributions self instance
      = Some (take 5 (sort_contribs
           [mkContribution "class" 0 "+"; mkContribution "stops" 0 "+";
            mkContribution "days_left" 0 "+"; c4; c5;
            mkContribution "source_city" 0 "+"; c7; c8;
            mkContribution "destination_city" 0 "+"])).
Proof.
  intros Hp Hrm base record.
  destruct (local_contributions_unfold self p rm instance Hp Hrm)
    as (contribs & Hall & Heq).
  fold base in Hall. unfold groups in Hall.
  assert (Hzero : ∀ g, toggle instance base g.2 = Some base →
    contribution_of self instance base (pipeline_predict p base) g
    = Some (mkContribution g.1 0 "+")).
  { intros g Hg.
    by apply (contribution_of_unchanged self p instance base base g). }
  subst record. cbv beta.
  repeat match type of Hall with
         | Forall2 _ (_ :: _) _ =>
             let c := fresh "c" in let H := fresh "Hc" in
             apply Forall2_cons_inv_l in Hall as (c & ? & H & Hall & ->)
         end.
  apply Forall2_nil_inv_l in Hall as ->.
  rewrite (Hzero ("class", ["class"]) eq_refl) in Hc.
  rewrite (Hzero ("stops", ["stops"]) eq_refl) in Hc0.
  rewrite (Hzero ("days_left", ["days_left"]) eq_refl) in Hc1.
  rewrite (Hzero ("source_city", ["source_city"]) eq_refl) in Hc4.
  rewrite (Hzero ("destination_city", ["destination_city"]) eq_refl) in Hc7.
  injection Hc as <-. injection Hc0 as <-. injection Hc1 as <-.
  injection Hc4 as <-. injection Hc7 as <-.
  exists c2, c3, c5, c6. by repeat split.
Qed.

(** A record of the result that carries the name of a group is the record
    of that group. *)
Lemma local_contributions_named (self : FlightPriceModel) (p : Pipeline)
    (rm : RouteMedians) (instance : Row) (out : list Contribution)
    (c : Contribution) (g : string * list string) :
  pipeline self = Some p →
  route_medians self = Some rm →
  local_contributions self instance = Some out →
  c ∈ out → g ∈ groups → feature c = g.1 →
  contribution_of self instance (baseline rm instance)
    (pipeline_predict p (baseline rm instance)) g = Some c.
Proof.
  intros Hp Hrm Hout Hc Hg Hname.
  destruct (local_contributions_elem self p rm instance out c Hp Hrm Hout Hc)
    as (g' & Hg' & Hgc).
  assert (g' = g) as ->; [|done].
  apply groups_name_inj; [done|done|].
  destruct (toggle_group instance (baseline rm instance) g' Hg')
    as [variant' Hv'].
  rewrite (contribution_of_group self p instance _ variant' _ g' Hp Hv') in Hgc.
  injection Hgc as <-. by rewrite <- Hname.
Qed.

(** X4.  The records of class, stops, days-left, origin city and
    destination city are always zero with direction [+]: the baseline
    keeps these columns of the input, so restoring them changes nothing. *)
Theorem required_groups_contribute_zero
    (self : FlightPriceModel) (p : Pipeline) (rm : RouteMedians)
    (instance : Row) (name : string) :
  pipeline self = Some p →
  route_medians self = Some rm →
  name ∈ ["class"; "stops"; "days_left"; "source_city"; "destination_city"] →
  let base := baseline rm instance in
  contribution_of self instance base (pipeline_predict p base) (name, [name])
  = Some (mkContribution name 0 "+")
  ∧ ∀ out c,
      local_contributions self instance = Some out →
      c ∈ out → feature c = name →
      contribution c = 0 ∧ direction c = "+".
Proof.
  intros Hp Hrm Hname base.
  assert (Hg : (name, [name]) ∈ groups ∧ toggle instance base [name] = Some base).
  { unfold groups.
    repeat (apply elem_of_cons in Hname as [->|Hname];
            [split; [set_solver|reflexivity]|]).
    by apply elem_of_nil in Hname. }
  destruct Hg as [Hg Hv].
  assert (Hrec :
    contribution_of self instance base (pipeline_predict p base) (name, [name])
    = Some (mkContribution name 0 "+")).
  { by apply (contribution_of_unchanged self p instance base base
                (name, [name])). }
  split; [exact Hrec|].
  intros out c Hout Hc Hfeature.
  pose proof (local_contributions_named self p rm instance out c (name, [name])
                Hp Hrm Hout Hc Hg Hfeature) as Hc'.
  fold base in Hc'. rewrite Hrec in Hc'. by injection Hc' as <-.
Qed.

Lemma required_groups_contribute_zero_witness :
  let base := baseline example_route_medians example_row in
  contribution_of example_model example_row base
    (pipeline_predict example_pipeline base) ("stops", ["stops"])
  = Some (mkContribution "stops" 0 "+")
  ∧ ∀ out c,
      local_contributions example_model example_row = Some out →
      c ∈ out → feature c = "stops" →
      contribution c = 0 ∧ direction c = "+".
Proof.
  refine (required_groups_contribute_zero example_model example_pipeline
            example_route_medians example_row "stops" eq_refl eq_refl _).
  set_solver.
Defined.

(** X5.  An optional field that the input leaves at [Unknown], and a
    duration equal to the global median, get a zero record with
    direction [+]. *)
Theorem defaulted_fields_contribute_zero
    (self : FlightPriceModel) (p : Pipeline) (rm : RouteMedians)
    (instance : Row) (out : list Contribution) (c : Contribution) :
  pipeline self = Some p →
  route_medians self = Some rm →
  local_contributions self instance = Some out →
  c ∈ out →
  (feature c = "airline" ∧ airline instance = "Unknown")
  ∨ (feature c = "departure_time" ∧ departure_time instance = "Unknown")
  ∨ (feature c = "arrival_time" ∧ arrival_time instance = "Unknown")
  ∨ (feature c = "duration" ∧ duration instance = global_duration_median rm) →
  contribution c = 0 ∧ direction c = "+".
Proof.
  intros Hp Hrm Hout Hc Hcase.
  set (base := baseline rm instance).
  assert (Hg : ∃ g, g ∈ groups ∧ feature c = g.1
                    ∧ toggle instance base g.2 = Some base).
  { destruct Hcase as [[Hf Hv]|[[Hf Hv]|[[Hf Hv]|[Hf Hv]]]].
    - exists ("airline", ["airline"]).
      split; [unfold groups; set_solver|]. split; [done|].
      subst base. unfold toggle, baseline, copy_column. simpl.
      by rewrite Hv.
    - exists ("departure_time", ["departure_time"]).
      split; [unfold groups; set_solver|]. split; [done|].
      subst base. unfold toggle, baseline, copy_column. simpl.
      by rewrite Hv.
    - exists ("arrival_time", ["arrival_time"]).
      split; [unfold groups; set_solver|]. split; [done|].
      subst base. unfold toggle, baseline, copy_column. simpl.
      by rewrite Hv.
    - exists ("duration", ["duration"]).
      split; [unfold groups; set_solver|]. split; [done|].
      subst base. unfold toggle, baseline, copy_column. simpl.
      by rewrite Hv. }
  destruct Hg as (g & Hg & Hname & Hv).
  pose proof (local_contributions_named self p rm instance out c g
                Hp Hrm Hout Hc Hg Hname) as Hc'.
  fold base in Hc'.
  rewrite (contribution_of_unchanged self p instance base base g Hp Hv eq_refl)
    in Hc'.
  by injection Hc' as <-.
Qed.

(** With the forest of the example, which answers 5 for every row, all
    nine records are zero and the result is the first five groups. *)
Lemma example_local_contributions (instance : Row) :
  local_contributions example_model instance
  = Some [mkContribution "class" 0 "+"; mkContribution "stops" 0 "+";
          mkContribution "days_left" 0 "+"; mkContribution "duration" 0 "+";
          mkContribution "airline" 0 "+"].
Proof.
  destruct (contribs_structure example_model example_pipeline
              example_route_medians instance eq_refl eq_refl)
    as (c4 & c5 & c7 & c8 & H4 & H5 & H7 & H8 & ->).
  assert (Hz : ∀ g variant,
    toggle instance (baseline example_route_medians instance) g.2
    = Some variant →
    contribution_of example_model instance
      (baseline example_route_medians instance)
      (pipeline_predict example_pipeline
         (baseline example_route_medians instance)) g
    = Some (mkContribution g.1 0 "+")).
  { intros g variant Hv.
    by apply (contribution_of_unchanged example_model example_pipeline
                instance _ variant g). }
  rewrite (Hz ("duration", ["duration"]) _ eq_refl) in H4.
  rewrite (Hz ("airline", ["airline"]) _ eq_refl) in H5.
  rewrite (Hz ("departure_time", ["departure_time"]) _ eq_refl) in H7.
  rewrite (Hz ("arrival_time", ["arrival_time"]) _ eq_refl) in H8.
  injection H4 as <-. injection H5 as <-.
  injection H7 as <-. injection H8 as <-.
  unfold sort_contribs. simpl.
  repeat (destruct (Rlt_dec _ _); try lra; simpl).
  reflexivity.
Qed.

Lemma defaulted_fields_contribute_zero_witness :
  contribution (mkContribution "airline" 0 "+") = 0
  ∧ direction (mkContribution "airline" 0 "+") = "+".
Proof.
  apply (defaulted_fields_contribute_zero example_model example_pipeline
           example_route_medians example_row_defaults _
           (mkContribution "airline" 0 "+") eq_refl eq_refl
           (example_local_contributions example_row_defaults)).
  - set_solver.
  - left. split; reflexivity.
Defined.

Lemma length_filter_Forall {A} (P : A → Prop) `{∀ x, Decision (P x)}
    (l : list A) :
  Forall P l → length (filter P l) = length l.
Proof.
  induction 1 as [|x l Hx Hl IH]; [done|].
  rewrite filter_cons_True by done. simpl. by rewrite IH.
Qed.

(** When fewer than [n] records are positive, every positive record is
    among the first [n] of the sorted records. *)
Lemma positive_in_top (n : nat) (l : list Contribution) (c : Contribution) :
  (length (filter (λ x, (0 < contribution x)%R) l) < S n)%nat →
  c ∈ l → 0 < contribution c →
  c ∈ take (S n) (sort_contribs l).
Proof.
  intros Hfew Hc Hpos.
  pose proof (sort_contribs_sorted l) as Hs.
  pose proof (sort_contribs_perm l) as Hperm.
  rewrite <- Hperm in Hc, Hfew.
  rewrite <- (take_drop (S n) (sort_contribs l)) in Hc, Hs, Hfew.
  apply elem_of_app in Hc as [Hc|Hc]; [done|]. exfalso.
  assert (Hall : Forall (λ x, 0 < contribution x)
                   (take (S n) (sort_contribs l))).
  { apply Forall_forall. intros x Hx.
    pose proof (StronglySorted_app_1_elem_of _ _ _ x c Hs Hx Hc) as Hxc.
    unfold by_magnitude_desc in Hxc. lra. }
  rewrite filter_app, length_app, (length_filter_Forall _ _ Hall) in Hfew.
  assert (Hlen : length (take (S n) (sort_contribs l)) = S n).
  { rewrite length_take. apply Nat.min_l.
    destruct (decide (S n ≤ length (sort_contribs l))%nat) as [|Hn]; [done|].
    rewrite drop_ge in Hc by lia. by apply elem_of_nil in Hc. }
  assert (Hdrop : (0 < length (filter (λ x, (0 < contribution x)%R)
                                  (drop (S n) (sort_contribs l))))%nat).
  { assert (Hin : c ∈ filter (λ x, 0 < contribution x)
                        (drop (S n) (sort_contribs l)))
      by (by apply list_elem_of_filter).
    destruct (filter _ _); [by apply elem_of_nil in Hin|simpl; lia]. }
  lia.
Qed.

(** X6.  A feature group whose record is not zero is always in the result:
    at most four records can differ from zero and the result has five. *)
Theorem nonzero_groups_are_reported
    (self : FlightPriceModel) (p : Pipeline) (rm : RouteMedians)
    (instance : Row) (g : string * list string) (c : Contribution) :
  pipeline self = Some p →
  route_medians self = Some rm →
  g ∈ groups →
  contribution_of self instance (baseline rm instance)
    (pipeline_predict p (baseline rm instance)) g = Some c →
  contribution c ≠ 0 →
  ∃ out, local_contributions self instance = Some out ∧ c ∈ out.
Proof.
  intros Hp Hrm Hg Hc Hnz.
  destruct (contribs_structure self p rm instance Hp Hrm)
    as (c4 & c5 & c7 & c8 & H4 & H5 & H7 & H8 & Hout).
  eexists. split; [exact Hout|].
  assert (Hpos : 0 < contribution c).
  { destruct (toggle_group instance (baseline rm instance) g Hg)
      as [variant Hv].
    rewrite (contribution_of_group self p instance _ variant _ g Hp Hv) in Hc.
    injection Hc as <-. simpl in *.
    pose proof (Rabs_pos (pipeline_predict p variant
                          - pipeline_predict p (baseline rm instance))).
    lra. }
  apply positive_in_top; [| |exact Hpos].
  - rewrite !filter_cons, filter_nil.
    repeat case_decide; simpl in *; try (exfalso; lra); lia.
  - unfold groups in Hg.
    assert (Hzero : contribution_of self instance (baseline rm instance)
              (pipeline_predict p (baseline rm instance)) g
            = Some (mkContribution g.1 0 "+") → False).
    { intros Hc'. rewrite Hc in Hc'. injection Hc' as ->. by apply Hnz. }
    repeat (apply elem_of_cons in Hg as [->|Hg];
      [first
        [ (exfalso; apply Hzero;
           apply (contribution_of_unchanged self p instance _
                    (baseline rm instance)); [exact Hp|reflexivity|reflexivity])
        | (rewrite Hc in H4; injection H4 as <-; set_solver)
        | (rewrite Hc in H5; injection H5 as <-; set_solver)
        | (rewrite Hc in H7; injection H7 as <-; set_solver)
        | (rewrite Hc in H8; injection H8 as <-; set_solver) ]
      |]).
    by apply elem_of_nil in Hg.
Qed.

Lemma example_airline_record :
  contribution_of example_airline_model example_row
    (baseline example_route_medians example_row)
    (pipeline_predict example_airline_pipeline
       (baseline example_route_medians example_row))
    ("airline", ["airline"])
  = Some (mkContribution "airline" 2 "+").
Proof.
  rewrite (contribution_of_group example_airline_model example_airline_pipeline
             example_row (baseline example_route_medians example_row)
             (mkRow "Delhi" "Mumbai" 0 0 10 2 "Vistara" "Unknown" "Unknown")
             _ ("airline", ["airline"]) eq_refl eq_refl).
  simpl. replace (7 - 5) with 2 by lra.
  rewrite Rabs_right by lra.
  destruct (Rge_dec 2 0); [reflexivity|lra].
Qed.

Lemma nonzero_groups_are_reported_witness :
  ∃ out,
    local_contributions example_airline_model example_row = Some out
    ∧ mkContribution "airline" 2 "+" ∈ out.
Proof.
  apply (nonzero_groups_are_reported example_airline_model
           example_airline_pipeline example_route_medians example_row
           ("airline", ["airline"]) _ eq_refl eq_refl).
  - unfold groups. set_solver.
  - exact example_airline_record.
  - simpl. lra.
Defined.

(** X7.  The result has exactly five records, and their feature names are
    pairwise distinct. *)
Theorem local_contributions_five_distinct
    (self : FlightPriceModel) (p : Pipeline) (rm : RouteMedians)
    (instance : Row) :
  pipeline self = Some p →
  route_medians self = Some rm →
  ∃ out,
    local_contributions self instance = Some out
    ∧ length out = 5%nat
    ∧ NoDup (feature <$> out)
    ∧ Forall (λ c, c.(feature) ∈ groups.*1) out.
Proof.
  intros Hp Hrm.
  destruct (local_contributions_unfold self p rm instance Hp Hrm)
    as (contribs & Hall & Heq).
  assert (Hnames : feature <$> contribs = groups.*1).
  { clear Heq. induction Hall as [|g c gs cs Hgc Hall IH]; [done|].
    rewrite !fmap_cons, IH. f_equal.
    unfold contribution_of in Hgc.
    destruct (toggle _ _ _) as [t|]; [|done]. simpl in Hgc.
    destruct (predict_with_uncertainty self t) as [[[a b] d]|]; [|done].
    simpl in Hgc. by injection Hgc as <-. }
  assert (Hlen : length contribs = 9%nat).
  { by rewrite <- (Forall2_length _ _ _ Hall). }
  assert (Hsorted_names : feature <$> sort_contribs contribs ≡ₚ groups.*1).
  { by rewrite sort_contribs_perm, Hnames. }
  eexists. split; [exact Heq|]. split; [|split].
  - rewrite length_take, sort_contribs_length, Hlen. reflexivity.
  - rewrite fmap_take.
    eapply sublist_NoDup; [|apply sublist_take].
    rewrite Hsorted_names. unfold groups. simpl.
    repeat (apply NoDup_cons; split; [set_solver|]). apply NoDup_nil_2.
  - apply Forall_forall. intros c Hc.
    apply subseteq_take in Hc.
    rewrite <- Hsorted_names. apply list_elem_of_fmap. eauto.
Qed.

Lemma local_contributions_five_distinct_witness :
  ∃ out,
    local_contributions example_airline_model example_row = Some out
    ∧ length out = 5%nat
    ∧ NoDup (feature <$> out)
    ∧ Forall (λ c, c.(feature) ∈ groups.*1) out.
Proof.
  exact (local_contributions_five_distinct example_airline_model
           example_airline_pipeline example_route_medians example_row
           eq_refl eq_refl).
Defined.

(** X8.  The records that are left out are not larger than the records
    that are returned. *)
Theorem local_contributions_keeps_largest
    (self : FlightPriceModel) (p : Pipeline) (rm : RouteMedians)
    (instance : Row) (out : list Contribution)
    (g : string * list string) (c c' : Contribution) :
  pipeline self = Some p →
  route_medians self = Some rm →
  local_contributions self instance = Some out →
  g ∈ groups →
  contribution_of self instance (baseline rm instance)
    (pipeline_predict p (baseline rm instance)) g = Some c →
  c ∉ out →
  c' ∈ out →
  contribution c <= contribution c'.
Proof.
  intros Hp Hrm Hout Hg Hc Hnot Hc'.
  destruct (local_contributions_unfold self p rm instance Hp Hrm)
    as (contribs & Hall & Heq).
  rewrite Heq in Hout. injection Hout as <-.
  assert (Hin : c ∈ sort_contribs contribs).
  { apply elem_of_sort_contribs.
    apply list_elem_of_lookup in Hg as [i Hi].
    destruct (Forall2_lookup_l _ _ _ _ _ Hall Hi) as (c0 & Hc0 & Hgc).
    rewrite Hc in Hgc. injection Hgc as <-.
    apply list_elem_of_lookup. eauto. }
  pose proof (sort_contribs_sorted contribs) as Hs.
  rewrite <- (take_drop 5 (sort_contribs contribs)) in Hin, Hs.
  apply elem_of_app in Hin as [Hin|Hin]; [done|].
  exact (StronglySorted_app_1_elem_of _ _ _ c' c Hs Hc' Hin).
Qed.

Lemma local_contributions_keeps_largest_witness :
  contribution (mkContribution "source_city" 0 "+")
  <= contribution (mkContribution "class" 0 "+").
Proof.
  apply (local_contributions_keeps_largest example_model example_pipeline
           example_route_medians example_row _
           ("source_city", ["source_city"]) _ _ eq_refl eq_refl
           (example_local_contributions example_row)).
  - unfold groups. set_solver.
  - by apply (contribution_of_unchanged example_model example_pipeline
                example_row _ (baseline example_route_medians example_row)
                ("source_city", ["source_city"])).
  - intros H.
    repeat (apply elem_of_cons in H as [[=]|H]). by apply elem_of_nil in H.
  - apply list_elem_of_here.
Defined.

(** ** The width of the interval *)












(** ** Training, loading and processes *)

(** What the training branch leaves behind. *)
Lemma train_fresh_result (lib : Library) (w w' : World) :
  train_fresh lib w = Some w' →
  ∃ fitted rm names,
    w' = mkWorld (csv_file w)
           (Some (clock w,
                  mkArtifact fitted rm names
                    (Some ("rf-" +:+ pretty (int_of (clock w))))))
           (clock w)
           (mkModel (Some fitted) (Some rm) (Some names)
                    (Some "backend/model.joblib")
                    (Some ("rf-" +:+ pretty (int_of (clock w)))))
           (S (fits w))
    ∧ is_Some (csv_file w).
Proof.
  unfold train_fresh. intros H.
  destruct (csv_file w) as [[tc raw]|]; [|done]. cbn [mbind option_bind] in H.
  destruct (to_numeric_frame lib _) as [df|]; [|done].
  cbn [mbind option_bind] in H.
  destruct (fit lib _) as [[fitted names]|]; [|done].
  cbn [mbind option_bind] in H.
  injection H as <-. eexists _, _, _. split; [reflexivity|eauto].
Qed.

(** X11.  Persistence round trip: when a new process has obtained its
    model, by training or by loading, and the dataset is not dated after
    the clock, a later new process on the same files loads the artifact and
    gets the same model, version tag included, without fitting. *)
Theorem restart_reloads_same_model
    (lib : Library) (w w1 : World) (m1 : FlightPriceModel) (t : Q) :
  MODEL_SINGLETON w = new_model →
  (∀ tc raw, csv_file w = Some (tc, raw) → (tc <= clock w)%Q) →
  load_or_train_model lib w = Some (m1, w1) →
  load_or_train_model lib (at_time t (restart w1)) = Some (m1, at_time t w1)
  ∧ fits (at_time t w1) = fits w1.
Proof.
  intros Hnew Hclock H. split; [|reflexivity].
  unfold load_or_train_model in H. rewrite Hnew in H. simpl pipeline in H.
  destruct (train_or_load lib w) as [w'|] eqn:Ht; [|done].
  cbn [mbind option_bind] in H. injection H as <- <-.
  unfold train_or_load in Ht.
  assert (Hfresh : train_fresh lib w = Some w' →
    load_or_train_model lib (at_time t (restart w'))
    = Some (MODEL_SINGLETON w', at_time t w')).
  { intros Hf.
    destruct (train_fresh_result lib w w' Hf)
      as (fitted & rm & names & -> & [[tc raw] Hcsv]).
    unfold load_or_train_model, train_or_load, at_time, restart.
    cbn [MODEL_SINGLETON pipeline new_model csv_file model_file clock fits
         from_option fst].
    rewrite Hcsv. cbn [from_option fst].
    assert (Hle : Qle_bool tc (clock w) = true)
      by (apply Qle_bool_iff; by eapply Hclock).
    rewrite Hle. reflexivity. }
  destruct (model_file w) as [[tm loaded]|] eqn:Hmodel; [|by apply Hfresh].
  destruct (Qle_bool _ _) eqn:Hle; [|by apply Hfresh].
  injection Ht as <-.
  unfold load_or_train_model, train_or_load, at_time, restart.
  cbn [MODEL_SINGLETON pipeline new_model csv_file model_file clock fits].
  cbn [from_option fst] in *. rewrite Hle. reflexivity.
Qed.

Lemma restart_reloads_same_model_witness :
  ∃ m1 w1,
    load_or_train_model example_library example_world = Some (m1, w1)
    ∧ load_or_train_model example_library (at_time 300%Q (restart w1))
      = Some (m1, at_time 300%Q w1)
    ∧ fits (at_time 300%Q w1) = fits w1.
Proof.
  eexists _, _. split; [reflexivity|].
  apply (restart_reloads_same_model example_library example_world _ _ 300%Q
           eq_refl).
  - intros tc raw [= <- _]. done.
  - reflexivity.
Defined.

(** X12.  A new process retrains when there is no artifact or the dataset
    is newer than the artifact: one forest is fitted, the version tag is
    [rf-] followed by the whole seconds of the clock, and the artifact is
    replaced by one written at the clock that holds the model and its
    tag. *)
Theorem stale_artifact_retrains
    (lib : Library) (w w' : World) (m : FlightPriceModel)
    (tc : Q) (raw : gmap string (list cell)) :
  pipeline (MODEL_SINGLETON w) = None →
  csv_file w = Some (tc, raw) →
  (∀ tm a, model_file w = Some (tm, a) → (tm < tc)%Q) →
  load_or_train_model lib w = Some (m, w') →
  fits w' = S (fits w)
  ∧ model_version m = Some ("rf-" +:+ pretty (int_of (clock w)))
  ∧ ∃ art,
      model_file w' = Some (clock w, art)
      ∧ pipeline m = Some (artifact_pipeline art)
      ∧ route_medians m = Some (artifact_route_medians art)
      ∧ feature_names_out_ m = Some (artifact_feature_names_out art)
      ∧ artifact_model_version art = model_version m.
Proof.
  intros Hnone Hcsv Hstale H.
  unfold load_or_train_model in H. rewrite Hnone in H.
  destruct (train_or_load lib w) as [w1|] eqn:Ht; [|done].
  cbn [mbind option_bind] in H. injection H as <- <-.
  assert (Hf : train_fresh lib w = Some w1).
  { unfold train_or_load in Ht.
    destruct (model_file w) as [[tm loaded]|] eqn:Hmodel; [|done].
    rewrite Hcsv in Ht. cbn [from_option fst] in Ht.
    destruct (Qle_bool tc tm) eqn:Hle; [|done].
    apply Qle_bool_iff in Hle.
    pose proof (Hstale tm loaded eq_refl) as Hlt.
    exfalso. by apply (Qlt_not_le _ _ Hlt). }
  destruct (train_fresh_result lib w w1 Hf) as (fitted & rm & names & -> & _).
  simpl. repeat split. eexists. repeat split.
Qed.

Lemma stale_artifact_retrains_witness :
  ∃ m w',
    load_or_train_model example_library example_world = Some (m, w')
    ∧ fits w' = S (fits example_world)
    ∧ model_version m = Some ("rf-" +:+ pretty (int_of (clock example_world)))
    ∧ ∃ art,
        model_file w' = Some (clock example_world, art)
        ∧ pipeline m = Some (artifact_pipeline art)
        ∧ route_medians m = Some (artifact_route_medians art)
        ∧ feature_names_out_ m = Some (artifact_feature_names_out art)
        ∧ artifact_model_version art = model_version m.
Proof.
  eexists _, _. split; [reflexivity|].
  apply (stale_artifact_retrains example_library example_world _ _
           100%Q example_raw_frame eq_refl eq_refl).
  - intros tm a [=].
  - reflexivity.
Defined.

(** X13.  Without a dataset file a new process cannot train: with no
    artifact either the call raises, and with an artifact (whose
    modification time is not negative) the artifact is loaded and nothing
    is fitted. *)
Theorem missing_dataset
    (lib : Library) (w : World) :
  pipeline (MODEL_SINGLETON w) = None →
  csv_file w = None →
  (model_file w = None → load_or_train_model lib w = None)
  ∧ (∀ tm a, model_file w = Some (tm, a) → (0 <= tm)%Q →
       ∃ m w',
         load_or_train_model lib w = Some (m, w')
         ∧ pipeline m = Some (artifact_pipeline a)
         ∧ route_medians m = Some (artifact_route_medians a)
         ∧ fits w' = fits w
         ∧ model_file w' = model_file w).
Proof.
  intros Hnone Hcsv. split.
  - intros Hmodel. unfold load_or_train_model, train_or_load, train_fresh.
    by rewrite Hnone, Hmodel, Hcsv.
  - intros tm a Hmodel Htm.
    unfold load_or_train_model, train_or_load.
    rewrite Hnone, Hmodel, Hcsv. cbn [from_option fst].
    assert (Hle : Qle_bool 0 tm = true) by (by apply Qle_bool_iff).
    rewrite Hle. cbn [mbind option_bind]. eexists _, _.
    split; [reflexivity|]. by repeat split.
Qed.

Lemma missing_dataset_witness :
  load_or_train_model example_library (mkWorld None None 200%Q new_model 0)
  = None
  ∧ ∃ m w',
      load_or_train_model example_library
        (mkWorld None
           (Some (150%Q,
                  mkArtifact example_pipeline example_route_medians [] None))
           200%Q new_model 0)
      = Some (m, w')
      ∧ pipeline m = Some example_pipeline
      ∧ route_medians m = Some example_route_medians
      ∧ fits w' = 0%nat
      ∧ model_file w'
        = Some (150%Q,
                mkArtifact example_pipeline example_route_medians [] None).
Proof.
  split.
  - exact (proj1 (missing_dataset example_library
                    (mkWorld None None 200%Q new_model 0) eq_refl eq_refl)
             eq_refl).
  - refine (proj2 (missing_dataset example_library
                     (mkWorld None
                        (Some (150%Q,
                               mkArtifact example_pipeline
                                 example_route_medians [] None))
                        200%Q new_model 0) eq_refl eq_refl)
              150%Q _ eq_refl _).
    done.
Defined.

(** X14.  A process that has its model never looks at the files or the
    clock again: the response of [predict] is the same whatever the
    dataset, the artifact, the clock and the library steps are. *)
Theorem predict_uses_model_in_memory
    (lib lib' : Library) (w w' : World) (payload : Request.t) :
  is_Some (pipeline (MODEL_SINGLETON w)) →
  MODEL_SINGLETON w' = MODEL_SINGLETON w →
  fst <$> predict lib' w' payload = fst <$> predict lib w payload
  ∧ (∀ resp w1, predict lib w payload = Some (resp, w1) → w1 = w).
Proof.
  intros Hp Hsame. unfold predict.
  rewrite (load_or_train_model_ready lib w Hp).
  rewrite (load_or_train_model_ready lib' w') by (by rewrite Hsame).
  rewrite Hsame. cbn [mbind option_bind].
  destruct (impute_duration _ _ _ _) as [[[d b] iv]|];
    cbn [mbind option_bind]; [|done].
  destruct (STOPS_MAP !! _) as [n|]; cbn [mbind option_bind]; [|done].
  destruct (predict_with_uncertainty _ _) as [[[pt lo] hi]|];
    cbn [mbind option_bind]; [|done].
  destruct (local_contributions _ _) as [contribs|];
    cbn [mbind option_bind]; [|done].
  split; [reflexivity|]. by intros resp w1 [= _ <-].
Qed.

Lemma predict_uses_model_in_memory_witness :
  fst <$> predict example_library
            (with_dataset None (at_time 900%Q example_ready_world))
            example_request
  = fst <$> predict example_library example_ready_world example_request
  ∧ (∀ resp w1,
       predict example_library example_ready_world example_request
       = Some (resp, w1) →
       w1 = example_ready_world).
Proof.
  apply (predict_uses_model_in_memory example_library example_library
           example_ready_world
           (with_dataset None (at_time 900%Q example_ready_world))
           example_request).
  - simpl. eauto.
  - reflexivity.
Defined.

(** X15.  The model that a new process gets from [load_or_train_model] has
    all its attributes set, so none of the three inference methods fails
    on an assertion. *)
Theorem loaded_model_is_complete
    (lib : Library) (w w' : World) (m : FlightPriceModel) :
  MODEL_SINGLETON w = new_model →
  load_or_train_model lib w = Some (m, w') →
  (is_Some (pipeline m) ∧ is_Some (route_medians m)
   ∧ is_Some (feature_names_out_ m) ∧ is_Some (model_path m)
   ∧ is_Some (model_version m))
  ∧ ∀ (X : Row) (origin destination : string) (duration : option R),
      is_Some (predict_with_uncertainty m X)
      ∧ is_Some (impute_duration m origin destination duration)
      ∧ is_Some (local_contributions m X).
Proof.
  intros Hnew H.
  assert (Hall : ∃ p rm names path version,
            m = mkModel (Some p) (Some rm) (Some names) (Some path)
                        (Some version)).
  { unfold load_or_train_model in H. rewrite Hnew in H. simpl pipeline in H.
    destruct (train_or_load lib w) as [w1|] eqn:Ht; [|done].
    cbn [mbind option_bind] in H. injection H as <- <-.
    unfold train_or_load in Ht.
    assert (Hfresh : train_fresh lib w = Some w1 →
      ∃ p rm names path version,
        MODEL_SINGLETON w1
        = mkModel (Some p) (Some rm) (Some names) (Some path) (Some version)).
    { intros Hf.
      destruct (train_fresh_result lib w w1 Hf)
        as (fitted & rm & names & -> & _).
      simpl. by eexists _, _, _, _, _. }
    destruct (model_file w) as [[tm loaded]|]; [|by apply Hfresh].
    destruct (Qle_bool _ _); [|by apply Hfresh].
    injection Ht as <-. simpl. by eexists _, _, _, _, _. }
  destruct Hall as (p & rm & names & path & version & ->).
  split; [simpl; eauto 10|].
  intros X origin destination duration. split; [|split].
  - unfold predict_with_uncertainty. simpl. eauto.
  - unfold impute_duration. simpl.
    destruct duration as [d|]; [destruct (Rlt_dec 0 d)|]; eauto.
  - destruct (local_contributions_unfold
                (mkModel (Some p) (Some rm) (Some names) (Some path)
                         (Some version)) p rm X eq_refl eq_refl)
      as (contribs & _ & ->). eauto.
Qed.

Lemma loaded_model_is_complete_witness :
  ∃ m w',
    load_or_train_model example_library example_world = Some (m, w')
    ∧ (is_Some (pipeline m) ∧ is_Some (route_medians m)
       ∧ is_Some (feature_names_out_ m) ∧ is_Some (model_path m)
       ∧ is_Some (model_version m))
    ∧ ∀ (X : Row) (origin destination : string) (duration : option R),
        is_Some (predict_with_uncertainty m X)
        ∧ is_Some (impute_duration m origin destination duration)
        ∧ is_Some (local_contributions m X).
Proof.
  eexists _, _. split; [reflexivity|].
  exact (loaded_model_is_complete example_library example_world _ _
           eq_refl eq_refl).
Defined.

(** ** More on the preparation of the training frame *)

Lemma where_isin_idemp (allowed : list string) (s : string) :
  where_isin allowed (where_isin allowed s) = where_isin allowed s.
Proof.
  unfold where_isin at 2 3.
  destruct (bool_decide (s ∈ allowed)) eqn:E.
  - unfold where_isin. by rewrite E.
  - unfold where_isin. by destruct (bool_decide ("Unknown" ∈ allowed)).
Qed.

(** The loop does not touch a column that is not one of its five. *)
Lemma normalize_categoricals_other (df : gmap string (list cell))
    (col : string) :
  col ∉ CATEGORICAL_VOCABULARIES.*1 →
  normalize_categoricals df !! col = drop_irrelevant df !! col.
Proof.
  intros Hcol. unfold normalize_categoricals, CATEGORICAL_VOCABULARIES in *.
  simpl in Hcol. simpl.
  rewrite !normalize_column_other; [done|..];
    intros <-; apply Hcol; set_solver.
Qed.

Lemma normalize_categoricals_dropped (df : gmap string (list cell)) :
  normalize_categoricals df !! "flight" = None
  ∧ normalize_categoricals df !! "Unnamed: 0" = None.
Proof.
  split.
  - rewrite normalize_categoricals_other
      by (unfold CATEGORICAL_VOCABULARIES; simpl; set_solver).
    unfold drop_irrelevant. apply lookup_delete_eq.
  - rewrite normalize_categoricals_other
      by (unfold CATEGORICAL_VOCABULARIES; simpl; set_solver).
    unfold drop_irrelevant. rewrite lookup_delete_ne by done.
    apply lookup_delete_eq.
Qed.

(** X16.  Frame of the normalisation: the row-index and flight columns are
    removed, and every other column that is not one of the five
    categorical columns is kept as it is. *)
Theorem normalize_categoricals_frame (df : gmap string (list cell)) :
  normalize_categoricals df !! "flight" = None
  ∧ normalize_categoricals df !! "Unnamed: 0" = None
  ∧ ∀ col,
      col ∉ ["airline"; "source_city"; "departure_time"; "arrival_time";
             "destination_city"; "flight"; "Unnamed: 0"] →
      normalize_categoricals df !! col = df !! col.
Proof.
  split; [|split].
  - apply normalize_categoricals_dropped.
  - apply normalize_categoricals_dropped.
  - intros col Hcol.
    rewrite normalize_categoricals_other
      by (unfold CATEGORICAL_VOCABULARIES; simpl; set_solver).
    unfold drop_irrelevant.
    rewrite !lookup_delete_ne; [done|..]; intros <-; apply Hcol; set_solver.
Qed.

(** X17.  The normalisation is idempotent: a frame that has been
    normalised is not changed by a second pass. *)
Theorem normalize_categoricals_idempotent (df : gmap string (list cell)) :
  normalize_categoricals (normalize_categoricals df)
  = normalize_categoricals df.
Proof.
  apply map_eq. intros col.
  destruct (decide (col ∈ CATEGORICAL_VOCABULARIES.*1)) as [Hin|Hout].
  - apply list_elem_of_fmap in Hin as ([c allowed] & -> & Hin). simpl.
    rewrite (normalize_categoricals_lookup _ c allowed Hin).
    rewrite (normalize_categoricals_lookup df c allowed Hin).
    destruct (df !! c) as [series|]; [|done]. simpl. f_equal.
    rewrite <- list_fmap_compose. apply list_fmap_ext.
    intros i x _. simpl. by rewrite where_isin_idemp.
  - rewrite (normalize_categoricals_other _ col Hout).
    destruct (decide (col = "flight")) as [->|Hf].
    { unfold drop_irrelevant. rewrite lookup_delete_eq.
      symmetry. apply normalize_categoricals_dropped. }
    destruct (decide (col = "Unnamed: 0")) as [->|Hu].
    { unfold drop_irrelevant. rewrite lookup_delete_ne by done.
      rewrite lookup_delete_eq.
      symmetry. apply normalize_categoricals_dropped. }
    unfold drop_irrelevant. by rewrite !lookup_delete_ne.
Qed.

Lemma normalize_categoricals_frame_witness :
  normalize_categoricals example_raw_frame !! "price"
  = example_raw_frame !! "price".
Proof.
  apply (proj2 (proj2 (normalize_categoricals_frame example_raw_frame))).
  set_solver.
Defined.

(** The label columns: what [map] followed by [astype(int)] gives. *)
Lemma map_astype_int_Some (mapping : gmap string Z) (series : list cell)
    (codes : list Z) :
  map_astype_int mapping series = Some codes
  ↔ Forall2 (λ c code, ∃ s, c = CStr s ∧ mapping !! s = Some code)
            series codes.
Proof.
  unfold map_astype_int. rewrite mapM_Some. split.
  - intros H. eapply Forall2_impl; [exact H|].
    intros [s|] code Hc; [eauto|done].
  - intros H. eapply Forall2_impl; [exact H|].
    intros c code (s & -> & Hs). exact Hs.
Qed.

Lemma STOPS_MAP_lookup (s : string) (code : Z) :
  STOPS_MAP !! s = Some code
  ↔ (s = "zero" ∧ code = 0%Z) ∨ (s = "one" ∧ code = 1%Z)
    ∨ (s = "two_or_more" ∧ code = 2%Z).
Proof.
  unfold STOPS_MAP.
  destruct (decide (s = "zero")) as [->|H0];
    [rewrite lookup_insert_eq; naive_solver|rewrite lookup_insert_ne by done].
  destruct (decide (s = "one")) as [->|H1];
    [rewrite lookup_insert_eq; naive_solver|rewrite lookup_insert_ne by done].
  destruct (decide (s = "two_or_more")) as [->|H2];
    [rewrite lookup_insert_eq; naive_solver|rewrite lookup_insert_ne by done].
  rewrite lookup_empty. naive_solver.
Qed.

Lemma CLASS_MAP_lookup (s : string) (code : Z) :
  CLASS_MAP !! s = Some code
  ↔ (s = "Economy" ∧ code = 0%Z) ∨ (s = "Business" ∧ code = 1%Z).
Proof.
  unfold CLASS_MAP.
  destruct (decide (s = "Economy")) as [->|H0];
    [rewrite lookup_insert_eq; naive_solver|rewrite lookup_insert_ne by done].
  destruct (decide (s = "Business")) as [->|H1];
    [rewrite lookup_insert_eq; naive_solver|rewrite lookup_insert_ne by done].
  rewrite lookup_empty. naive_solver.
Qed.

(** X18.  The stops column is not normalised like the categorical columns:
    its encoding succeeds exactly when every cell is one of the three
    labels, which become 0, 1 and 2; any other cell, the missing value
    included, makes the preparation raise. *)
Theorem stops_column_encoding (series : list cell) :
  (∀ codes,
     map_astype_int STOPS_MAP series = Some codes
     ↔ Forall2 (λ c code,
                  (c = CStr "zero" ∧ code = 0%Z)
                  ∨ (c = CStr "one" ∧ code = 1%Z)
                  ∨ (c = CStr "two_or_more" ∧ code = 2%Z))
               series codes)
  ∧ (map_astype_int STOPS_MAP series = None
     ↔ ∃ c, c ∈ series ∧ ∀ s, c = CStr s → s ∉ ALLOWED_STOPS).
Proof.
  assert (Hcodes : ∀ codes,
     map_astype_int STOPS_MAP series = Some codes
     ↔ Forall2 (λ c code,
                  (c = CStr "zero" ∧ code = 0%Z)
                  ∨ (c = CStr "one" ∧ code = 1%Z)
                  ∨ (c = CStr "two_or_more" ∧ code = 2%Z))
               series codes).
  { intros codes. rewrite map_astype_int_Some. split; intros H.
    - eapply Forall2_impl; [exact H|].
      intros c code (s & -> & Hs). apply STOPS_MAP_lookup in Hs.
      naive_solver.
    - eapply Forall2_impl; [exact H|].
      intros c code Hc. 
      destruct Hc as [[-> ->]|[[-> ->]|[-> ->]]]; eexists; split; try done. }
  split; [exact Hcodes|].
  unfold map_astype_int. split.
  - intros Hnone.
    set (f := λ c, match c with
                   | CStr s => STOPS_MAP !! s
                   | CNaN => None
                   end) in *.
    destruct (decide (Forall (λ c, is_Some (f c)) series)) as [Hall|Hnot].
    + exfalso. apply (mapM_is_Some_2 f) in Hall.
      rewrite Hnone in Hall. by destruct Hall.
    + apply not_Forall_Exists in Hnot; [|apply _].
      apply Exists_exists in Hnot as (c & Hc & Hbad).
      exists c. split; [done|]. intros s -> Hs. apply Hbad.
      subst f. simpl. unfold ALLOWED_STOPS in Hs.
      repeat (apply elem_of_cons in Hs as [->|Hs]; [by eexists|]).
      by apply elem_of_nil in Hs.
  - intros (c & Hc & Hbad).
    destruct (mapM _ series) as [codes|] eqn:Hm; [|done]. exfalso.
    apply mapM_Some_1 in Hm.
    apply list_elem_of_lookup in Hc as [i Hi].
    destruct (Forall2_lookup_l _ _ _ _ _ Hm Hi) as (code & _ & Hcode).
    destruct c as [s|]; [|done].
    apply (Hbad s eq_refl). apply STOPS_MAP_lookup in Hcode.
    unfold ALLOWED_STOPS. set_solver.
Qed.

Lemma stops_column_encoding_witness :
  map_astype_int STOPS_MAP [CStr "zero"; CStr "two_or_more"; CStr "one"]
  = Some [0%Z; 2%Z; 1%Z]
  ∧ map_astype_int STOPS_MAP [CStr "zero"; CStr "three"] = None
  ∧ map_astype_int STOPS_MAP [CStr "zero"; CNaN] = None.
Proof.
  split; [|split].
  - apply (proj1 (stops_column_encoding _)).
    repeat constructor; naive_solver.
  - apply (proj2 (stops_column_encoding _)).
    exists (CStr "three"). split; [set_solver|].
    intros s [= <-]. unfold ALLOWED_STOPS. set_solver.
  - apply (proj2 (stops_column_encoding _)).
    exists CNaN. split; [set_solver|]. intros s [=].
Defined.

(** X19.  Whenever the class column of the training frame can be encoded,
    each code is the one that [predict] computes for the same label at
    inference: 1 for Business and 0 otherwise. *)
Theorem class_encoding_agrees_with_inference
    (series : list cell) (codes : list Z) :
  map_astype_int CLASS_MAP series = Some codes →
  Forall2 (λ c code,
             ∃ s, c = CStr s ∧ s ∈ ALLOWED_CLASS
                  ∧ code = if String.eqb s "Business" then 1%Z else 0%Z)
          series codes.
Proof.
  intros H. apply map_astype_int_Some in H.
  eapply Forall2_impl; [exact H|].
  intros c code (s & -> & Hs). apply CLASS_MAP_lookup in Hs.
  exists s. split; [done|]. unfold ALLOWED_CLASS.
  destruct Hs as [[-> ->]|[-> ->]]; split; try reflexivity; set_solver.
Qed.

Lemma class_encoding_agrees_with_inference_witness :
  Forall2 (λ c code,
             ∃ s, c = CStr s ∧ s ∈ ALLOWED_CLASS
                  ∧ code = if String.eqb s "Business" then 1%Z else 0%Z)
          [CStr "Business"; CStr "Economy"] [1%Z; 0%Z].
Proof.
  apply (class_encoding_agrees_with_inference
           [CStr "Business"; CStr "Economy"] [1%Z; 0%Z]).
  reflexivity.
Defined.

(** ** The endpoints *)

Lemma impute_duration_flag (self : FlightPriceModel)
    (origin destination : string) (duration : option R)
    (v : R) (b : bool) (iv : R) :
  impute_duration self origin destination duration = Some (v, b, iv) →
  (b = true ↔ ¬ ∃ d, duration = Some d ∧ 0 < d).
Proof.
  unfold impute_duration. intros H.
  destruct duration as [d|]; [destruct (Rlt_dec 0 d) as [Hd|Hd]|].
  - injection H as <- <- <-. split; [done|]. intros Hn. exfalso. eauto.
  - destruct (route_medians self); [|done]. simpl in H.
    injection H as <- <- <-. split; [|done].
    intros _ (d' & [= ->] & Hd'). contradiction.
  - destruct (route_medians self); [|done]. simpl in H.
    injection H as <- <- <-. split; [|done].
    intros _ (d' & [=] & _).
Qed.

Lemma or_unknown_defaulted (given : option string) :
  String.eqb (or_unknown given) "Unknown"
  && String.eqb (default EmptyString given) EmptyString = true
  ↔ given = None ∨ given = Some EmptyString.
Proof.
  destruct given as [s|]; simpl.
  - destruct (String.eqb s EmptyString) eqn:E.
    + apply String.eqb_eq in E as ->. simpl. naive_solver.
    + rewrite andb_false_r. split; [done|].
      intros [H|[= ->]]; [done|]. by rewrite String.eqb_refl in E.
  - naive_solver.
Qed.

Lemma note_default_lookup (field : string) (given : option string)
    (assumptions : gmap string string) (k : string) :
  note_default field (or_unknown given) given assumptions !! k
  = if decide (k = field ∧ (given = None ∨ given = Some EmptyString))
    then Some "default_unknown"
    else assumptions !! k.
Proof.
  unfold note_default.
  destruct (String.eqb (or_unknown given) "Unknown"
            && String.eqb (default EmptyString given) EmptyString) eqn:E.
  - apply or_unknown_defaulted in E.
    destruct (decide (k = field)) as [->|Hk].
    + rewrite lookup_insert_eq. by rewrite decide_True.
    + rewrite lookup_insert_ne by done. rewrite decide_False; [done|].
      by intros [? _].
  - rewrite decide_False; [done|]. intros [_ Hg].
    apply or_unknown_defaulted in Hg. congruence.
Qed.

(** The assumptions of a response, key by key. *)
Lemma predict_assumptions_lookup (lib : Library) (w w' : World)
    (payload : Request.t) (resp : PredictResponse) (k : string) :
  predict lib w payload = Some (resp, w') →
  assumptions_used resp !! k
  = if decide (k = "arrival_time"
               ∧ (Request.arrival_time payload = None
                  ∨ Request.arrival_time payload = Some EmptyString))
    then Some "default_unknown"
    else if decide (k = "departure_time"
                    ∧ (Request.departure_time payload = None
                       ∨ Request.departure_time payload = Some EmptyString))
    then Some "default_unknown"
    else if decide (k = "airline"
                    ∧ (Request.airline payload = None
                       ∨ Request.airline payload = Some EmptyString))
    then Some "default_unknown"
    else if decide (k = "duration")
    then match Request.duration payload with
         | Some d => if Rlt_dec 0 d then None else Some "route_median"
         | None => Some "route_median"
         end
    else None.
Proof.
  unfold predict. intros H.
  destruct (load_or_train_model lib w) as [[model w1]|]; [|done].
  cbn [mbind option_bind] in H.
  destruct (impute_duration model _ _ _) as [[[d b] iv]|] eqn:Himp; [|done].
  cbn [mbind option_bind] in H.
  destruct (STOPS_MAP !! Request.stops payload) as [stops|]; [|done].
  cbn [mbind option_bind] in H.
  destruct (predict_with_uncertainty model _) as [[[pt lower] upper]|];
    [|done].
  cbn [mbind option_bind] in H.
  destruct (local_contributions model _) as [contribs|]; [|done].
  cbn [mbind option_bind] in H.
  injection H as <- <-. cbn [assumptions_used].
  rewrite !note_default_lookup.
  repeat (case_decide; [reflexivity|]).
  apply impute_duration_flag in Himp.
  destruct b.
  - destruct (decide (k = "duration")) as [->|Hk].
    + rewrite lookup_insert_eq.
      destruct (Request.duration payload) as [d0|]; [|done].
      destruct (Rlt_dec 0 d0); [|done].
      exfalso. apply Himp; eauto.
    + by rewrite lookup_insert_ne, lookup_empty.
  - rewrite lookup_empty.
    destruct (decide (k = "duration")) as [->|Hk]; [|done].
    destruct (Request.duration payload) as [d0|] eqn:Hd.
    + destruct (Rlt_dec 0 d0); [done|].
      exfalso. assert (false = true); [|done].
      apply Himp. intros (d1 & [= ->] & Hd1). contradiction.
    + exfalso. assert (false = true); [|done].
      apply Himp. intros (d1 & [=] & _).
Qed.

(** X20.  The assumptions of a response: [duration] is listed, with method
    [route_median], exactly when no duration above zero was supplied; an
    optional categorical field is listed, with method [default_unknown],
    exactly when it was omitted or empty, so a field given as [Unknown] is
    not listed; there is no other key. *)
Theorem predict_assumptions
    (lib : Library) (w w' : World) (payload : Request.t)
    (resp : PredictResponse) :
  predict lib w payload = Some (resp, w') →
  let a := assumptions_used resp in
  (a !! "duration" = Some "route_median"
   ↔ ¬ ∃ d, Request.duration payload = Some d ∧ 0 < d)
  ∧ (a !! "airline" = Some "default_unknown"
     ↔ Request.airline payload = None
       ∨ Request.airline payload = Some EmptyString)
  ∧ (a !! "departure_time" = Some "default_unknown"
     ↔ Request.departure_time payload = None
       ∨ Request.departure_time payload = Some EmptyString)
  ∧ (a !! "arrival_time" = Some "default_unknown"
     ↔ Request.arrival_time payload = None
       ∨ Request.arrival_time payload = Some EmptyString)
  ∧ (Request.airline payload = Some "Unknown" → a !! "airline" = None)
  ∧ (∀ k, is_Some (a !! k) →
          k ∈ ["duration"; "airline"; "departure_time"; "arrival_time"]).
Proof.
  intros H a. subst a.
  pose proof (λ k, predict_assumptions_lookup lib w w' payload resp k H) as Hk.
  split; [|split; [|split; [|split; [|split]]]].
  - rewrite Hk. repeat (case_decide; [naive_solver|]).
    destruct (decide ("duration" = "duration")) as [_|Hn]; [|done].
    destruct (Request.duration payload) as [d|];
      [destruct (Rlt_dec 0 d)|]; naive_solver.
  - rewrite Hk. repeat case_decide; naive_solver.
  - rewrite Hk. repeat case_decide; naive_solver.
  - rewrite Hk. repeat case_decide; naive_solver.
  - intros Ha. rewrite Hk, Ha. repeat case_decide; naive_solver.
  - intros k [v Hv]. rewrite Hk in Hv.
    repeat case_decide; try done; set_solver.
Qed.

Lemma example_predict_returns :
  ∃ resp,
    predict example_library example_ready_world example_request
    = Some (resp, example_ready_world).
Proof.
  apply (predict_returns example_library example_ready_world example_request
           example_pipeline example_route_medians eq_refl eq_refl).
  unfold example_request, ALLOWED_STOPS. simpl. apply list_elem_of_here.
Qed.

Lemma predict_assumptions_witness :
  ∃ resp,
    predict example_library example_ready_world example_request
    = Some (resp, example_ready_world)
    ∧ assumptions_used resp !! "duration" = Some "route_median"
    ∧ assumptions_used resp !! "airline" = Some "default_unknown".
Proof.
  destruct example_predict_returns as [resp Hresp].
  exists resp. split; [exact Hresp|].
  destruct (predict_assumptions example_library example_ready_world
              example_ready_world example_request resp Hresp)
    as (Hd & Ha & _).
  split.
  - apply Hd. intros (d & [=] & _).
  - apply Ha. by left.
Defined.

(** ** Request validation *)

Lemma not_same_city_ok (v sc : string) :
  sc ≠ EmptyString →
  is_Some (Schema.not_same_city v (<["source_city" := sc]> ∅)) ↔ v ≠ sc.
Proof.
  intros Hsc. unfold Schema.not_same_city. rewrite lookup_insert_eq.
  destruct (String.eqb sc EmptyString) eqn:E;
    [by apply String.eqb_eq in E|].
  simpl. destruct (String.eqb v sc) eqn:Ev.
  - apply String.eqb_eq in Ev as ->. split; [by intros [? ?]|done].
  - apply String.eqb_neq in Ev. split; [done|eauto].
Qed.

(** What validation checks. *)
Lemma validate_iff (raw req : Request.t) :
  Schema.validate raw = Some req
  ↔ req = raw
    ∧ Request.source_city raw ∈ Schema.City
    ∧ Request.destination_city raw ∈ Schema.City
    ∧ Request.destination_city raw ≠ Request.source_city raw
    ∧ Request.cabin_class raw ∈ Schema.CabinClass
    ∧ Request.stops raw ∈ Schema.Stops
    ∧ (0 <= Request.days_left raw)%Z
    ∧ (∀ d, Request.duration raw = Some d → 0 < d)
    ∧ (∀ s, Request.airline raw = Some s → s ∈ Schema.Airline)
    ∧ (∀ s, Request.departure_time raw = Some s → s ∈ Schema.TimeBand)
    ∧ (∀ s, Request.arrival_time raw = Some s → s ∈ Schema.TimeBand).
Proof.
  assert (Hopt : ∀ allowed v,
            Schema.optional_in allowed v = true
            ↔ ∀ s, v = Some s → s ∈ allowed).
  { intros allowed [s|]; simpl.
    - rewrite bool_decide_eq_true. naive_solver.
    - naive_solver. }
  assert (Hdur : (match Request.duration raw with
                  | Some d => if Rlt_dec 0 d then true else false
                  | None => true
                  end) = true
                 ↔ ∀ d, Request.duration raw = Some d → 0 < d).
  { destruct (Request.duration raw) as [d|];
      [destruct (Rlt_dec 0 d)|]; naive_solver. }
  assert (Hcity : ∀ s, s ∈ Schema.City → s ≠ EmptyString).
  { intros s Hs ->. unfold Schema.City in Hs. set_solver. }
  unfold Schema.validate.
  destruct (bool_decide (Request.source_city raw ∈ Schema.City)) eqn:Hsrc.
  - apply bool_decide_eq_true in Hsrc.
    match goal with
    | |- (if ?b then _ else _) = _ ↔ _ => destruct b eqn:Hb
    end.
    + rewrite !andb_true_iff in Hb.
      destruct Hb as ((((((((_ & [Hd1 Hd2]) & Hc) & Hs) & Hl) & Hdu) & Ha)
                        & Hdep) & Harr).
      apply bool_decide_eq_true in Hd1, Hd2, Hc, Hs.
      apply (not_same_city_ok _ _ (Hcity _ Hsrc)) in Hd2.
      apply Z.leb_le in Hl.
      pose proof (proj1 Hdur Hdu) as Hdu'.
      pose proof (proj1 (Hopt _ _) Ha) as Ha'.
      pose proof (proj1 (Hopt _ _) Hdep) as Hdep'.
      pose proof (proj1 (Hopt _ _) Harr) as Harr'.
      split; [intros [= <-]; by repeat split|by intros (-> & _)].
    + split; [done|]. intros (-> & _ & Hd1 & Hd2 & Hc & Hs & Hl & Hdu & Ha
                              & Hdep & Harr).
      exfalso. rewrite <- not_true_iff_false in Hb. apply Hb.
      rewrite !andb_true_iff. repeat split;
        try (by apply bool_decide_eq_true);
        try (by apply Hopt); try (by apply Hdur); try (by apply Z.leb_le).
      apply bool_decide_eq_true.
      by apply (not_same_city_ok _ _ (Hcity _ Hsrc)).
  - apply bool_decide_eq_false in Hsrc. simpl.
    split; [done|]. by intros (_ & Hs & _).
Qed.

(** X21.  A request passes validation exactly when every field is in its
    type, days-left is not negative, a supplied duration is above zero and
    the destination differs from the origin; validation returns the
    request unchanged. *)
Theorem validate_accepts (raw req : Request.t) :
  Schema.validate raw = Some req
  ↔ req = raw
    ∧ Request.source_city raw ∈ Schema.City
    ∧ Request.destination_city raw ∈ Schema.City
    ∧ Request.destination_city raw ≠ Request.source_city raw
    ∧ Request.cabin_class raw ∈ Schema.CabinClass
    ∧ Request.stops raw ∈ Schema.Stops
    ∧ (0 <= Request.days_left raw)%Z
    ∧ (∀ d, Request.duration raw = Some d → 0 < d)
    ∧ (∀ s, Request.airline raw = Some s → s ∈ Schema.Airline)
    ∧ (∀ s, Request.departure_time raw = Some s → s ∈ Schema.TimeBand)
    ∧ (∀ s, Request.arrival_time raw = Some s → s ∈ Schema.TimeBand).
Proof. exact (validate_iff raw req). Qed.

Lemma validate_accepts_witness :
  Schema.validate example_request = Some example_request.
Proof.
  apply (validate_accepts example_request example_request).
  unfold example_request. simpl.
  split; [done|]. split; [set_solver|]. split; [set_solver|].
  split; [done|]. split; [set_solver|]. split; [set_solver|].
  split; [lia|]. repeat split; intros ? [=].
Defined.



(** X23.  The health endpoint never reports a missing pipeline: whenever
    it returns, [has_pipeline] is true and the version is that of the
    singleton. *)
Theorem health_reports_pipeline
    (lib : Library) (w w' : World) (h : HealthResponse) :
  health lib w = Some (h, w') →
  has_pipeline h = true
  ∧ status h = "ok"
  ∧ health_model_version h = model_version (MODEL_SINGLETON w').
Proof.
  unfold health. intros H.
  destruct (load_or_train_model lib w) as [[m w1]|] eqn:Hl; [|done].
  cbn [mbind option_bind] in H. injection H as <- <-.
  apply load_or_train_model_post in Hl as [-> Hp].
  simpl. split; [|done]. by apply bool_decide_eq_true.
Qed.

Lemma health_reports_pipeline_witness :
  ∃ h w',
    health example_library example_world = Some (h, w')
    ∧ has_pipeline h = true
    ∧ status h = "ok"
    ∧ health_model_version h = model_version (MODEL_SINGLETON w').
Proof.
  eexists _, _. split; [reflexivity|].
  exact (health_reports_pipeline example_library example_world _ _ eq_refl).
Defined.

(** X24.  The route-median endpoint announces the duration that
    imputation uses: for a request without duration the imputed value is
    the [route_median] of the answer when there is one and its
    [global_median] otherwise. *)
Theorem route_median_matches_imputation
    (lib : Library) (w w' : World) (origin destination : string)
    (r : RouteMedianResponse) :
  route_median lib w origin destination = Some (r, w') →
  let v := default (global_median r) (route_median_value r) in
  impute_duration (MODEL_SINGLETON w') origin destination None
  = Some (v, true, v).
Proof.
  intros H v. subst v. unfold route_median in H.
  destruct (load_or_train_model lib w) as [[m w1]|] eqn:Hl; [|done].
  cbn [mbind option_bind] in H.
  destruct (route_medians m) as [rm|] eqn:Hrm; [|done].
  cbn [mbind option_bind] in H. injection H as <- <-.
  apply load_or_train_model_post in Hl as [-> _].
  by rewrite (impute_duration_imputes (MODEL_SINGLETON w1) rm).
Qed.

Lemma route_median_matches_imputation_witness :
  ∃ r w',
    route_median example_library example_ready_world "Delhi" "Mumbai"
    = Some (r, w')
    ∧ impute_duration (MODEL_SINGLETON w') "Delhi" "Mumbai" None
      = Some (default (global_median r) (route_median_value r), true,
              default (global_median r) (route_median_value r)).
Proof.
  eexists _, _. split; [reflexivity|].
  exact (route_median_matches_imputation example_library example_ready_world
           _ "Delhi" "Mumbai" _ eq_refl).
Defined.

(** ** Reading a record back *)

(** X25.  The signed effect of a feature group can be read back from its
    record: the difference between the prediction for the variant and the
    prediction for the baseline is the magnitude when the direction is [+]
    and its opposite when the direction is [-], and the direction is [-]
    exactly when the variant is predicted below the baseline. *)
Theorem signed_delta_recoverable
    (self : FlightPriceModel) (p : Pipeline) (rm : RouteMedians)
    (instance : Row) (out : list Contribution) (c : Contribution) :
  pipeline self = Some p →
  route_medians self = Some rm →
  local_contributions self instance = Some out →
  c ∈ out →
  let base := baseline rm instance in
  ∃ g variant,
    g ∈ groups
    ∧ feature c = g.1
    ∧ toggle instance base g.2 = Some variant
    ∧ pipeline_predict p variant - pipeline_predict p base
      = (if String.eqb (direction c) "+"
         then contribution c else - contribution c)
    ∧ (direction c = "-"
       ↔ pipeline_predict p variant < pipeline_predict p base).
Proof.
  intros Hp Hrm Hout Hc base.
  destruct (local_contributions_elem self p rm instance out c Hp Hrm Hout Hc)
    as (g & Hg & Hgc).
  destruct (toggle_group instance base g Hg) as [variant Hv].
  exists g, variant.
  rewrite (contribution_of_group self p instance _ variant _ g Hp Hv) in Hgc.
  injection Hgc as <-. cbn [feature contribution direction]. fold base.
  split; [done|]. split; [done|]. split; [done|].
  destruct (Rge_dec (pipeline_predict p variant - pipeline_predict p base) 0)
    as [Hge|Hlt].
  - split.
    + simpl. rewrite Rabs_right by done. reflexivity.
    + split; [done|]. lra.
  - split.
    + simpl. rewrite Rabs_left by lra. lra.
    + split; [lra|done].
Qed.

Lemma signed_delta_recoverable_witness :
  let base := baseline example_route_medians example_row in
  ∃ g variant,
    g ∈ groups
    ∧ feature (mkContribution "class" 0 "+") = g.1
    ∧ toggle example_row base g.2 = Some variant
    ∧ pipeline_predict example_pipeline variant
      - pipeline_predict example_pipeline base
      = (if String.eqb (direction (mkContribution "class" 0 "+")) "+"
         then contribution (mkContribution "class" 0 "+")
         else - contribution (mkContribution "class" 0 "+"))
    ∧ (direction (mkContribution "class" 0 "+") = "-"
       ↔ pipeline_predict example_pipeline variant
         < pipeline_predict example_pipeline base).
Proof.
  apply (signed_delta_recoverable example_model example_pipeline
           example_route_medians example_row _
           (mkContribution "class" 0 "+") eq_refl eq_refl
           (example_local_contributions example_row)).
  apply list_elem_of_here.
Defined.
